(** * The billing data-access layer

    A shallow embedding of [src/lib/firebase/firestore.ts] and
    [src/lib/firebase/storage.ts] and of the properties stated for them.

    The first part is about [getInvoiceStats].  The function fetches the
    invoices of a user, reads the current time and folds once over the
    list, counting paid, unpaid and overdue invoices and summing their
    totals.  The fold is embedded as [computeStats], the two effectful
    functions [getUserInvoices] and [getInvoiceStats] over an explicit
    [World] that holds the outcome of the fetch, the clock and the console.

    The second part embeds the other functions of the two files over the
    requests they make to the Firebase SDK ([Sdk], [Storage],
    [Firestore]); there the fetch is spelled out as a query followed by
    the conversion of each document. *)

Set Warnings "-inexact-float".

From Stdlib Require Import ZArith Ascii Floats.PrimFloat.
From stdpp Require Import base list strings gmap pretty.

(** ** JavaScript values used by the aggregation *)

Module JS.

(** A [number] is an IEEE-754 binary64 value; [+] on numbers is
    [PrimFloat.add] (round to nearest, ties to even). *)
Abbreviation number := float (only parsing).

(** A [Date] wraps a time value: an integral number of milliseconds since
    the epoch, or NaN for an invalid date ([None] here). *)
Definition Date : Type := option Z.

(** [a < b] on two [Date] objects compares their time values as numbers;
    a comparison with NaN is [false]. *)
Definition date_lt (a b : Date) : bool :=
  match a, b with
  | Some x, Some y => (x <? y)%Z
  | _, _ => false
  end.

(** [s || d] on strings: the empty string is falsy. *)
Definition or_else (s d : string) : string :=
  if decide (s = ""%string) then d else s.

End JS.

Export JS.

(** ** Data model *)

(** Modelled from the spec: the declaration of [InvoiceStatus] (imported
    from [../types]) is not among the sources; the spec gives the closed
    enumeration draft, sent, paid, overdue, cancelled.  The code only ever
    compares a status with the literal ["paid"]. *)
Inductive InvoiceStatus : Set :=
  | draft
  | sent
  | paid
  | overdue
  | cancelled.

#[global] Instance InvoiceStatus_eq_dec : EqDecision InvoiceStatus.
Proof. solve_decision. Defined.

(** The fields of an [Invoice] that [getInvoiceStats] reads. *)
Record Invoice : Type := mkInvoice {
  status : InvoiceStatus;
  total : number;
  dueDate : Date;
}.

(** The four counters are numbers that start at [0] (or at the array
    length) and are only incremented, at most once per element; an array
    has fewer than 2^32 elements, so every increment is exact and the
    counters are embedded as [nat].  The two sums are numbers. *)
Record InvoiceStats : Type := mkStats {
  totalInvoices : nat;
  paidInvoices : nat;
  unpaidInvoices : nat;
  overdueInvoices : nat;
  totalRevenue : number;
  outstandingAmount : number;
}.

(** ** The aggregation (firestore.ts, lines 219-244) *)

(** [invoice.status === "paid"] *)
Definition isPaid (invoice : Invoice) : bool :=
  bool_decide (status invoice = paid).

(** The object literal that initialises [stats]. *)
Definition initialStats (invoices : list Invoice) : InvoiceStats :=
  {| totalInvoices := length invoices;
     paidInvoices := 0;
     unpaidInvoices := 0;
     overdueInvoices := 0;
     totalRevenue := 0%float;
     outstandingAmount := 0%float |}.

(** The callback passed to [invoices.forEach]; the mutation of [stats] is
    made explicit as a new record. *)
Definition accumulate (today : Date) (stats : InvoiceStats) (invoice : Invoice)
  : InvoiceStats :=
  if isPaid invoice then
    {| totalInvoices := totalInvoices stats;
       paidInvoices := S (paidInvoices stats);
       unpaidInvoices := unpaidInvoices stats;
       overdueInvoices := overdueInvoices stats;
       totalRevenue := (totalRevenue stats + total invoice)%float;
       outstandingAmount := outstandingAmount stats |}
  else
    {| totalInvoices := totalInvoices stats;
       paidInvoices := paidInvoices stats;
       unpaidInvoices := S (unpaidInvoices stats);
       overdueInvoices :=
         if date_lt (dueDate invoice) today && negb (isPaid invoice)
         then S (overdueInvoices stats)
         else overdueInvoices stats;
       totalRevenue := totalRevenue stats;
       outstandingAmount := (outstandingAmount stats + total invoice)%float |}.

(** The body of [getInvoiceStats] after the fetch, with the value of
    [today] as an argument. *)
Definition computeStats (invoices : list Invoice) (today : Date) : InvoiceStats :=
  fold_left (accumulate today) invoices (initialStats invoices).

(** ** Effects: the document store, the clock and the console *)

(** A promise either resolves with a value or rejects with an [Error]
    carrying a message. *)
Inductive outcome (A : Type) : Type :=
  | Resolved (a : A)
  | Rejected (message : string).
Arguments Resolved {A} a.
Arguments Rejected {A} message.

(** What the code can observe of its environment.  [fetch userId] is the
    outcome of the Firestore query of [getUserInvoices] together with the
    marshalling of each document into an [Invoice]; [now] is the time value
    that [new Date()] reads; [console] collects the lines written with
    [console.error], most recent first. *)
Record World : Type := mkWorld {
  fetch : string -> outcome (list Invoice);
  now : Z;
  console : list string;
}.

Definition M (A : Type) : Type := World -> outcome A * World.

Definition ret {A} (a : A) : M A := fun w => (Resolved a, w).

Definition throw {A} (message : string) : M A := fun w => (Rejected message, w).

Definition bind {A B} (m : M A) (k : A -> M B) : M B :=
  fun w =>
    match m w with
    | (Resolved a, w') => k a w'
    | (Rejected e, w') => (Rejected e, w')
    end.

Definition try_catch {A} (m : M A) (handler : string -> M A) : M A :=
  fun w =>
    match m w with
    | (Resolved a, w') => (Resolved a, w')
    | (Rejected e, w') => handler e w'
    end.

Declare Scope js_scope.
Delimit Scope js_scope with js.
Notation "x <- m ;; k" := (bind m (fun x => k))
  (at level 100, m at next level, right associativity) : js_scope.
Notation "m ;;; k" := (bind m (fun _ => k))
  (at level 100, right associativity) : js_scope.

(** [await getDocs(q)] followed by [snapshot.docs.map(...)]. *)
Definition getDocs (userId : string) : M (list Invoice) :=
  fun w => (fetch w userId, w).

(** [new Date()] *)
Definition newDate : M Date := fun w => (Resolved (Some (now w)), w).

(** [console.error(label, error)] *)
Definition console_error (label : string) : M unit :=
  fun w =>
    (Resolved tt,
     {| fetch := fetch w; now := now w; console := label :: console w |}).

Definition getUserInvoices (userId : string) : M (list Invoice) :=
  try_catch
    (getDocs userId)
    (fun message =>
       console_error "Error fetching invoices:" ;;;
       throw (or_else message "Failed to fetch invoices"))%js.

Definition getInvoiceStats (userId : string) : M InvoiceStats :=
  try_catch
    (invoices <- getUserInvoices userId ;;
     today <- newDate ;;
     ret (computeStats invoices today))%js
    (fun message =>
       console_error "Error calculating invoice stats:" ;;;
       throw (or_else message "Failed to calculate stats"))%js.

(** ** Reference sums used in the statements *)

(** The left-to-right sum of a list of numbers starting from [0], as
    [xs.reduce((s, x) => s + x, 0)] computes it. *)
Definition sumNumbers (xs : list number) : number :=
  fold_left PrimFloat.add xs 0%float.

Definition paidOnes (invoices : list Invoice) : list Invoice :=
  filter (fun i => isPaid i = true) invoices.

Definition unpaidOnes (invoices : list Invoice) : list Invoice :=
  filter (fun i => isPaid i = false) invoices.

Definition overdueOnes (today : Date) (invoices : list Invoice) : list Invoice :=
  filter (fun i => date_lt (dueDate i) today = true) (unpaidOnes invoices).

(** The total counter is set once from the array length and only carried
    along by the loop. *)
Definition withTotal (n : nat) (stats : InvoiceStats) : InvoiceStats :=
  {| totalInvoices := n;
     paidInvoices := paidInvoices stats;
     unpaidInvoices := unpaidInvoices stats;
     overdueInvoices := overdueInvoices stats;
     totalRevenue := totalRevenue stats;
     outstandingAmount := outstandingAmount stats |}.

(** ** Sample data *)

Definition inv (s : InvoiceStatus) (t : number) (d : Z) : Invoice :=
  {| status := s; total := t; dueDate := Some d |}.

(** Sample worlds: one user with a sent invoice due at time 10, seen at
    time 5 and at time 20. *)
Definition sampleFetch (userId : string) : outcome (list Invoice) :=
  if decide (userId = "alice"%string) then Resolved [inv sent 50 10]
  else Rejected "permission-denied".

Definition worldAt (t : Z) : World :=
  {| fetch := sampleFetch; now := t; console := [] |}.

(** An input and a reordering of it. *)
Definition sampleInvoices : list Invoice :=
  [inv paid 100 3; inv sent 50 5; inv draft 20 9].

Definition sampleReordered : list Invoice :=
  [inv sent 50 5; inv paid 100 3; inv draft 20 9].

(** Two paid and two sent invoices with amounts in tenths. *)
Definition splitInvoices : list Invoice :=
  [inv paid 0.1 0; inv paid 0.1 0; inv sent 0.6 0; inv sent 0.7 0].

(** * The rest of the data-access layer

    The other functions of [firestore.ts] and the functions of
    [storage.ts] call the Firebase SDK.  The SDK is not part of the code:
    its answers are taken from an environment, and every request made to
    it is recorded, so that what the code asks for and what it does with
    the answers can be stated. *)

Module Sdk.

#[local] Unset Elimination Schemes.

(** Field values of documents and of the objects built from them, over the
    time stamps of the SDK.  [VUndefined] is what reading an absent key
    gives. *)
Inductive value (T : Type) : Type :=
  | VUndefined
  | VNull
  | VBool (b : bool)
  | VNumber (x : number)
  | VString (s : string)
  | VDate (d : Date)
  | VTimestamp (t : T)
  | VArray (items : list (value T))
  | VMap (fields : list (string * value T)).

#[local] Set Elimination Schemes.

Arguments VUndefined {T}.
Arguments VNull {T}.
Arguments VBool {T} b.
Arguments VNumber {T} x.
Arguments VString {T} s.
Arguments VDate {T} d.
Arguments VTimestamp {T} t.
Arguments VArray {T} items.
Arguments VMap {T} fields.

(** The [Timestamp] class of the SDK: [Timestamp.fromDate(d)], which
    validates its argument and may throw, [t.toDate()], and the value that
    [Timestamp.now()] returns when the clock reads a given time. *)
Class TimestampApi : Type := {
  Timestamp : Type;
  fromDate : value Timestamp -> outcome Timestamp;
  toDate : Timestamp -> Date;
  nowAt : Z -> Timestamp;
}.

Section WithTimestamps.

Context `{TimestampApi}.

(** A plain object. *)
Abbreviation object := (gmap string (value Timestamp)).

(** [o.key] *)
Definition get (o : object) (key : string) : value Timestamp :=
  match o !! key with
  | Some v => v
  | None => VUndefined
  end.

(** Whether a value counts as true in a condition. *)
Definition truthy (v : value Timestamp) : bool :=
  match v with
  | VUndefined | VNull => false
  | VBool b => b
  | VNumber x => negb (PrimFloat.eqb x 0 || PrimFloat.is_nan x)
  | VString s => negb (bool_decide (s = ""%string))
  | VDate _ | VTimestamp _ | VArray _ | VMap _ => true
  end.

(** [where(field, op, v)] and [orderBy(field, direction)] *)
Inductive QueryConstraint : Type :=
  | where_ (field op : string) (v : value Timestamp)
  | orderBy (field direction : string).

(** A [File] has a name; its content is all a [Blob] has. *)
Record File : Type := mkFile {
  name : string;
  content : string;
}.

(** An [UploadTaskSnapshot], as far as the code reads it. *)
Record UploadTaskSnapshot : Type := mkSnapshot {
  bytesTransferred : number;
  totalBytes : number;
}.

(** The requests that the code makes to the SDK. *)
Inductive Call : Type :=
  | AddDoc (collection : string) (data : object)
  | GetDoc (collection id : string)
  | GetDocs (collection : string) (constraints : list QueryConstraint)
  | UpdateDoc (collection id : string) (data : object)
  | DeleteDoc (collection id : string)
  | UploadBytes (path : string) (blob : string)
  | UploadBytesResumable (path : string) (blob : string)
  | GetDownloadURL (path : string)
  | DeleteObject (path : string).

(** The environment: the readings of the clock, one per read, in order;
    the message of the [TypeError] that the engine raises when a method
    that a value does not have is called on it; and the answers of the
    SDK, each a function of the requests made so far, the current one
    first.  A document snapshot has an id, and data when the document
    exists; a query snapshot is the list of its documents. *)
Record Env : Type := mkEnv {
  ticks : nat -> Z;
  notAFunction : string -> string;
  acknowledged : list Call -> outcome unit;
  documentId : list Call -> outcome string;
  documentSnapshot : list Call -> outcome (string * option object);
  querySnapshot : list Call -> outcome (list (string * object));
  downloadURL : list Call -> outcome string;
  uploadTask : list Call -> list UploadTaskSnapshot * outcome unit;
}.

(** What the code changes: the requests made, most recent first, the
    number of clock readings taken, the lines written with
    [console.error] (label and message of the error), most recent first,
    and the values passed to a progress callback, most recent first. *)
Record State : Type := mkState {
  calls : list Call;
  reads : nat;
  errors : list (string * string);
  progress : list number;
}.

Definition Run (A : Type) : Type := Env -> State -> outcome A * State.

Definition pure {A} (a : A) : Run A := fun _ st => (Resolved a, st).

Definition raise {A} (message : string) : Run A :=
  fun _ st => (Rejected message, st).

Definition andThen {A B} (m : Run A) (k : A -> Run B) : Run B :=
  fun env st =>
    match m env st with
    | (Resolved a, st') => k a env st'
    | (Rejected e, st') => (Rejected e, st')
    end.

Definition catch {A} (m : Run A) (handler : string -> Run A) : Run A :=
  fun env st =>
    match m env st with
    | (Resolved a, st') => (Resolved a, st')
    | (Rejected e, st') => handler e env st'
    end.

(** [Date.now()], and with it [new Date()]: the next reading of the
    clock. *)
Definition dateNow : Run Z :=
  fun env st =>
    (Resolved (ticks env (reads st)),
     {| calls := calls st; reads := S (reads st);
        errors := errors st; progress := progress st |}).

(** [Timestamp.now()] *)
Definition timestampNow : Run (value Timestamp) :=
  fun env st =>
    (Resolved (VTimestamp (nowAt (ticks env (reads st)))),
     {| calls := calls st; reads := S (reads st);
        errors := errors st; progress := progress st |}).

(** [Timestamp.fromDate(v)] *)
Definition timestampFromDate (v : value Timestamp) : Run (value Timestamp) :=
  fun _ st =>
    match fromDate v with
    | Resolved t => (Resolved (VTimestamp t), st)
    | Rejected e => (Rejected e, st)
    end.

(** [console.error(label, error)] *)
Definition consoleError (label message : string) : Run unit :=
  fun _ st =>
    (Resolved tt,
     {| calls := calls st; reads := reads st;
        errors := (label, message) :: errors st; progress := progress st |}).

(** [onProgress(x)] *)
Definition report (x : number) : Run unit :=
  fun _ st =>
    (Resolved tt,
     {| calls := calls st; reads := reads st;
        errors := errors st; progress := x :: progress st |}).

(** A request to the SDK: it is recorded, then answered. *)
Definition request {A} (answer : Env -> list Call -> A) (c : Call)
  : Env -> State -> A * State :=
  fun env st =>
    (answer env (c :: calls st),
     {| calls := c :: calls st; reads := reads st;
        errors := errors st; progress := progress st |}).

(** The [catch] block that every [async] function of the two files ends
    with:
    [console.error(label, error); throw new Error(error.message || fallback)]. *)
Definition guarded {A} (label fallback : string) (body : Run A) : Run A :=
  catch body
    (fun message =>
       andThen (consoleError label message)
               (fun _ => raise (or_else message fallback))).

(** [xs.map(f)] with a callback that may throw: the elements are visited
    in order, and the first exception ends the loop. *)
Fixpoint mapRun {A B} (f : A -> Run B) (xs : list A) : Run (list B) :=
  match xs with
  | [] => pure []
  | x :: rest =>
      andThen (f x) (fun y =>
      andThen (mapRun f rest) (fun ys => pure (y :: ys)))
  end.

End WithTimestamps.

Abbreviation object := (gmap string (value Timestamp)).

Declare Scope sdk_scope.
Delimit Scope sdk_scope with sdk.
Notation "x <- m ;; k" := (andThen m (fun x => k))
  (at level 100, m at next level, right associativity) : sdk_scope.
Notation "m ;;; k" := (andThen m (fun _ => k))
  (at level 100, right associativity) : sdk_scope.

End Sdk.

(** ** File uploads (storage.ts) *)

Module Storage.

Import Sdk.

(** [s.split(sep)] for a separator of one character: the pieces of [s]
    between the separators, at least one piece. *)
Fixpoint split (sep : ascii) (s : string) : list string :=
  match s with
  | EmptyString => [EmptyString]
  | String c rest =>
      if decide (c = sep) then EmptyString :: split sep rest
      else
        match split sep rest with
        | piece :: pieces => String c piece :: pieces
        | [] => [String c EmptyString]
        end
  end.

(** The value of [xs.pop()]: the last element, [undefined] on an empty
    array. *)
Definition pop (xs : list string) : option string := last xs.

(** A string or [undefined] inside a template literal. *)
Definition interpolate (x : option string) : string :=
  match x with
  | Some s => s
  | None => "undefined"
  end.

(** [xs.join(sep)], the inverse of [split]. *)
Fixpoint join (sep : ascii) (xs : list string) : string :=
  match xs with
  | [] => EmptyString
  | [x] => x
  | x :: rest => x +:+ String sep (join sep rest)
  end.

(** Whether the character [c] occurs in [s]. *)
Fixpoint occurs (c : ascii) (s : string) : bool :=
  match s with
  | EmptyString => false
  | String c' rest => bool_decide (c' = c) || occurs c rest
  end.

(** [file.name.split(".").pop()] *)
Definition fileExtension (fileName : string) : option string :=
  pop (split "."%char fileName).

(** The object name that [uploadUserLogo] builds for a file when the clock
    reads [t]. *)
Definition logoPath (userId : string) (t : Z) (fileName : string) : string :=
  "users/" +:+ userId +:+ "/logo/"
  +:+ ("logo_" +:+ pretty t +:+ "." +:+ interpolate (fileExtension fileName)).

(** The object name that [uploadFileWithProgress] builds. *)
Definition folderPath (userId folder : string) (t : Z) (fileName : string)
  : string :=
  "users/" +:+ userId +:+ "/" +:+ folder +:+ "/"
  +:+ (folder +:+ "_" +:+ pretty t +:+ "."
       +:+ interpolate (fileExtension fileName)).

(** The object name that [uploadSignature] builds. *)
Definition signaturePath (userId : string) (t : Z) : string :=
  "users/" +:+ userId +:+ "/signatures/"
  +:+ ("signature_" +:+ pretty t +:+ ".png").

(** The progress computed by the observer of [uploadFileWithProgress]. *)
Definition percent (snapshot : UploadTaskSnapshot) : number :=
  (bytesTransferred snapshot / totalBytes snapshot * 100)%float.

Section WithTimestamps.

Context `{TimestampApi}.

Definition uploadUserLogo (userId : string) (file : File) : Run string :=
  guarded "Error uploading logo:" "Failed to upload logo"
    (t <- dateNow ;;
     let storageRef := logoPath userId t (name file) in
     request acknowledged (UploadBytes storageRef (content file)) ;;;
     downloadURL <- request downloadURL (GetDownloadURL storageRef) ;;
     pure downloadURL)%sdk.

(** The first observer: it is called with each snapshot of the task. *)
Definition onStateChanged (onProgress : bool) (snapshot : UploadTaskSnapshot)
  : Run unit :=
  if onProgress then report (percent snapshot) else pure tt.

(** [onProgress] tells whether the caller passed a progress callback.  The
    task delivers its snapshots to the first observer and then either its
    error to the second or its completion to the third. *)
Definition uploadFileWithProgress
    (userId : string) (file : File) (folder : string) (onProgress : bool)
  : Run string :=
  (t <- dateNow ;;
   let storageRef := folderPath userId folder t (name file) in
   fun env st =>
     let '((snapshots, final), st1) :=
       request uploadTask (UploadBytesResumable storageRef (content file)) env st
     in
     (mapRun (onStateChanged onProgress) snapshots ;;;
      match final with
      | Rejected message =>
          consoleError "Upload error:" message ;;;
          raise (or_else message "Failed to upload file")
      | Resolved _ =>
          catch
            (request downloadURL (GetDownloadURL storageRef))
            (fun message =>
               raise (or_else message "Failed to get download URL"))
      end) env st1)%sdk.

Definition deleteFile (fileUrl : string) : Run unit :=
  guarded "Error deleting file:" "Failed to delete file"
    (request acknowledged (DeleteObject fileUrl)).

Definition uploadSignature (userId : string) (signatureBlob : string)
  : Run string :=
  guarded "Error uploading signature:" "Failed to upload signature"
    (t <- dateNow ;;
     let storageRef := signaturePath userId t in
     request acknowledged (UploadBytes storageRef signatureBlob) ;;;
     downloadURL <- request downloadURL (GetDownloadURL storageRef) ;;
     pure downloadURL)%sdk.

End WithTimestamps.

End Storage.

(** ** Documents (firestore.ts) *)

Module Firestore.

Import Sdk.

(** The array left by [xs.splice(start, deleteCount, ...items)]. *)
Definition splice {A} (start deleteCount : nat) (items xs : list A) : list A :=
  take start xs ++ items ++ drop (start + deleteCount) xs.

Section WithTimestamps.

Context `{TimestampApi}.

(** [data.field?.toDate() || new Date()]: the date of a time stamp; the
    time of the call when the field is [null] or absent; a [TypeError]
    when the field holds anything else, for no other value has a [toDate]
    method. *)
Definition dateOr (data : object) (field : string) : Run (value Timestamp) :=
  match get data field with
  | VUndefined | VNull => (t <- dateNow ;; pure (VDate (Some t)))%sdk
  | VTimestamp ts => pure (VDate (toDate ts))
  | _ => fun env st => (Rejected (notAFunction env field), st)
  end.

(** The values on which [dateOr] does not throw. *)
Definition convertible (v : value Timestamp) : bool :=
  match v with
  | VUndefined | VNull | VTimestamp _ => true
  | _ => false
  end.

(** The fields of a stored invoice, and of a stored agreement or template,
    that are turned into dates. *)
Definition invoiceDates : list string :=
  ["createdAt"; "updatedAt"; "dueDate"; "issueDate"]%string.

Definition recordDates : list string := ["createdAt"; "updatedAt"]%string.

(** The callback of [snapshot.docs.map] in [getUserInvoices] and
    [getInvoicesByStatus], and the object that [getInvoice] builds:
    [{ id: doc.id, ...data, createdAt: ..., updatedAt: ..., dueDate: ...,
       issueDate: ... }]. *)
Definition toInvoice (doc : string * object) : Run object :=
  (let data := doc.2 in
   createdAt <- dateOr data "createdAt" ;;
   updatedAt <- dateOr data "updatedAt" ;;
   dueDate <- dateOr data "dueDate" ;;
   issueDate <- dateOr data "issueDate" ;;
   pure (<["issueDate" := issueDate]>
           (<["dueDate" := dueDate]>
              (<["updatedAt" := updatedAt]>
                 (<["createdAt" := createdAt]>
                    (data ∪ {["id" := VString doc.1]}))))))%sdk.

(** The object built for an agreement and for a template:
    [{ id: doc.id, ...data, createdAt: ..., updatedAt: ... }]. *)
Definition toRecord (doc : string * object) : Run object :=
  (let data := doc.2 in
   createdAt <- dateOr data "createdAt" ;;
   updatedAt <- dateOr data "updatedAt" ;;
   pure (<["updatedAt" := updatedAt]>
           (<["createdAt" := createdAt]>
              (data ∪ {["id" := VString doc.1]}))))%sdk.

(** *** Invoices *)

Definition createInvoice (invoice : object) : Run string :=
  guarded "Error creating invoice:" "Failed to create invoice"
    (dueDate <- timestampFromDate (get invoice "dueDate") ;;
     issueDate <- timestampFromDate (get invoice "issueDate") ;;
     createdAt <- timestampNow ;;
     updatedAt <- timestampNow ;;
     docRefId <- request documentId
       (AddDoc "invoices"
          (<["updatedAt" := updatedAt]>
             (<["createdAt" := createdAt]>
                (<["issueDate" := issueDate]>
                   (<["dueDate" := dueDate]> invoice))))) ;;
     pure docRefId)%sdk.

Definition getUserInvoices (userId : string) : Run (list object) :=
  guarded "Error fetching invoices:" "Failed to fetch invoices"
    (docs <- request querySnapshot
       (GetDocs "invoices"
          [where_ "userId" "==" (VString userId);
           orderBy "createdAt" "desc"]) ;;
     mapRun toInvoice docs)%sdk.

Definition getInvoicesByStatus (userId status : string) : Run (list object) :=
  guarded "Error fetching invoices by status:" "Failed to fetch invoices"
    (docs <- request querySnapshot
       (GetDocs "invoices"
          [where_ "userId" "==" (VString userId);
           where_ "status" "==" (VString status);
           orderBy "createdAt" "desc"]) ;;
     mapRun toInvoice docs)%sdk.

Definition getInvoice (invoiceId : string) : Run (option object) :=
  guarded "Error fetching invoice:" "Failed to fetch invoice"
    (docSnap <- request documentSnapshot (GetDoc "invoices" invoiceId) ;;
     match docSnap.2 with
     | Some data =>
         invoice <- toInvoice (docSnap.1, data) ;; pure (Some invoice)
     | None => pure None
     end)%sdk.

(** The two [if] statements of [updateInvoice]: a date of the updates that
    counts as true is replaced by its time stamp. *)
Definition convertDate (updates : object) (field : string) (updateData : object)
  : Run object :=
  if truthy (get updates field)
  then (ts <- timestampFromDate (get updates field) ;;
        pure (<[field := ts]> updateData))%sdk
  else pure updateData.

Definition updateInvoice (invoiceId : string) (updates : object) : Run unit :=
  guarded "Error updating invoice:" "Failed to update invoice"
    (updatedAt <- timestampNow ;;
     let updateData := <["updatedAt" := updatedAt]> updates in
     updateData <- convertDate updates "dueDate" updateData ;;
     updateData <- convertDate updates "issueDate" updateData ;;
     request acknowledged (UpdateDoc "invoices" invoiceId updateData))%sdk.

Definition updateInvoiceStatus (invoiceId status : string) : Run unit :=
  guarded "Error updating invoice status:" "Failed to update invoice status"
    (updatedAt <- timestampNow ;;
     request acknowledged
       (UpdateDoc "invoices" invoiceId
          (<["updatedAt" := updatedAt]> {["status" := VString status]})))%sdk.

Definition deleteInvoice (invoiceId : string) : Run unit :=
  guarded "Error deleting invoice:" "Failed to delete invoice"
    (request acknowledged (DeleteDoc "invoices" invoiceId)).

(** *** Agreements *)

Definition createAgreement (agreement : object) : Run string :=
  guarded "Error creating agreement:" "Failed to create agreement"
    (createdAt <- timestampNow ;;
     updatedAt <- timestampNow ;;
     docRefId <- request documentId
       (AddDoc "agreements"
          (<["updatedAt" := updatedAt]>
             (<["createdAt" := createdAt]> agreement))) ;;
     pure docRefId)%sdk.

Definition getAgreementByInvoiceId (invoiceId : string) : Run (option object) :=
  guarded "Error fetching agreement:" "Failed to fetch agreement"
    (docs <- request querySnapshot
       (GetDocs "agreements" [where_ "invoiceId" "==" (VString invoiceId)]) ;;
     match docs with
     | doc :: _ => agreement <- toRecord doc ;; pure (Some agreement)
     | [] => pure None
     end)%sdk.

Definition getAgreement (agreementId : string) : Run (option object) :=
  guarded "Error fetching agreement:" "Failed to fetch agreement"
    (docSnap <- request documentSnapshot (GetDoc "agreements" agreementId) ;;
     match docSnap.2 with
     | Some data =>
         agreement <- toRecord (docSnap.1, data) ;; pure (Some agreement)
     | None => pure None
     end)%sdk.

(** [isFinalized] is [None] when the argument is left out or
    [undefined]. *)
Definition updateAgreement
    (agreementId content : string) (isFinalized : option bool) : Run unit :=
  guarded "Error updating agreement:" "Failed to update agreement"
    (updatedAt <- timestampNow ;;
     let updateData :=
       <["updatedAt" := updatedAt]> {["content" := VString content]} in
     let updateData :=
       match isFinalized with
       | Some b => <["isFinalized" := VBool b]> updateData
       | None => updateData
       end in
     request acknowledged (UpdateDoc "agreements" agreementId updateData))%sdk.

Definition deleteAgreement (agreementId : string) : Run unit :=
  guarded "Error deleting agreement:" "Failed to delete agreement"
    (request acknowledged (DeleteDoc "agreements" agreementId)).

(** *** Templates *)

(** The constraints of the query of [getUserTemplates]; [type] is [None]
    when the argument is left out. *)
Definition templateConstraints (userId : string) (type : option string)
  : list QueryConstraint :=
  let constraints :=
    [where_ "userId" "==" (VString userId); orderBy "createdAt" "desc"] in
  match type with
  | Some t =>
      if truthy (VString t)
      then splice 1 0 [where_ "type" "==" (VString t)] constraints
      else constraints
  | None => constraints
  end.

Definition getUserTemplates (userId : string) (type : option string)
  : Run (list object) :=
  guarded "Error fetching templates:" "Failed to fetch templates"
    (docs <- request querySnapshot
       (GetDocs "templates" (templateConstraints userId type)) ;;
     mapRun toRecord docs)%sdk.

Definition createTemplate (template : object) : Run string :=
  guarded "Error creating template:" "Failed to create template"
    (createdAt <- timestampNow ;;
     updatedAt <- timestampNow ;;
     docRefId <- request documentId
       (AddDoc "templates"
          (<["updatedAt" := updatedAt]>
             (<["createdAt" := createdAt]> template))) ;;
     pure docRefId)%sdk.

Definition updateTemplate (templateId : string) (updates : object) : Run unit :=
  guarded "Error updating template:" "Failed to update template"
    (updatedAt <- timestampNow ;;
     request acknowledged
       (UpdateDoc "templates" templateId
          (<["updatedAt" := updatedAt]> updates)))%sdk.

Definition deleteTemplate (templateId : string) : Run unit :=
  guarded "Error deleting template:" "Failed to delete template"
    (request acknowledged (DeleteDoc "templates" templateId)).

End WithTimestamps.

End Firestore.

(** ** A sample environment *)

Module Samples.

Import Sdk.

(** Time stamps that are just milliseconds; an invalid date is refused. *)
Definition millis : TimestampApi :=
  {| Timestamp := Z;
     fromDate := fun v =>
       match v with
       | VDate (Some t) => Resolved t
       | _ => Rejected "Invalid date"
       end;
     toDate := fun t => Some t;
     nowAt := fun t => t |}.

#[local] Existing Instance millis.

(** A clock that advances by one millisecond at each reading. *)
Definition clockFrom (t0 : Z) (n : nat) : Z := (t0 + Z.of_nat n)%Z.

(** A state in which nothing has happened yet. *)
Definition fresh : State :=
  {| calls := []; reads := 0; errors := []; progress := [] |}.

(** A stored invoice with all its dates, one without a due date, and one
    whose due date was stored as text. *)
Definition storedInvoice : object :=
  <["userId" := VString "alice"]>
    (<["status" := VString "sent"]>
       (<["total" := VNumber 50]>
          (<["createdAt" := VTimestamp 100%Z]>
             (<["updatedAt" := VTimestamp 200%Z]>
                (<["dueDate" := VTimestamp 300%Z]>
                   {["issueDate" := VTimestamp 150%Z]}))))).

Definition undatedInvoice : object :=
  delete "dueDate" storedInvoice.

Definition malformedInvoice : object :=
  <["dueDate" := VString "2024-01-01"]> storedInvoice.

(** An SDK over three stored invoices: every write is acknowledged, the
    invoices of alice are the first two, those of bob the last two. *)
Definition sampleEnv : Env :=
  {| ticks := clockFrom 1000;
     notAFunction := fun field => field +:+ "?.toDate is not a function";
     acknowledged := fun _ => Resolved tt;
     documentId := fun _ => Resolved "new-id";
     documentSnapshot := fun log =>
       match log with
       | GetDoc collection id :: _ =>
           if bool_decide (collection = "invoices"%string)
              && bool_decide (id = "inv1"%string)
           then Resolved (id, Some storedInvoice)
           else Resolved (id, None)
       | _ => Rejected "unavailable"
       end;
     querySnapshot := fun log =>
       match log with
       | GetDocs collection (where_ _ _ (VString user) :: _) :: _ =>
           if bool_decide (collection = "invoices"%string)
           then
             if bool_decide (user = "alice"%string)
             then Resolved [("inv1"%string, storedInvoice);
                            ("inv2"%string, undatedInvoice)]
             else
               if bool_decide (user = "bob"%string)
               then Resolved [("inv2"%string, undatedInvoice);
                              ("inv3"%string, malformedInvoice)]
               else Resolved []
           else Resolved []
       | _ => Rejected "unavailable"
       end;
     downloadURL := fun log =>
       match log with
       | GetDownloadURL path :: _ => Resolved ("https://cdn/" +:+ path)
       | _ => Rejected "unavailable"
       end;
     uploadTask := fun _ => ([], Resolved tt) |}.

(** A stored agreement, and one whose creation date was stored as text. *)
Definition storedAgreement : object :=
  <["invoiceId" := VString "inv1"]>
    (<["content" := VString "Terms"]>
       (<["createdAt" := VTimestamp 400%Z]>
          {["updatedAt" := VTimestamp 500%Z]})).

Definition malformedAgreement : object :=
  <["createdAt" := VString "yesterday"]> storedAgreement.

(** The sample SDK, except that every query is answered with these two
    agreements, the well-formed one first. *)
Definition agreementsEnv : Env :=
  {| ticks := ticks sampleEnv;
     notAFunction := notAFunction sampleEnv;
     acknowledged := acknowledged sampleEnv;
     documentId := documentId sampleEnv;
     documentSnapshot := documentSnapshot sampleEnv;
     querySnapshot := fun _ =>
       Resolved [("agr1"%string, storedAgreement);
                 ("agr2"%string, malformedAgreement)];
     downloadURL := downloadURL sampleEnv;
     uploadTask := uploadTask sampleEnv |}.

End Samples.
(** * Properties *)

(** ** The fold, field by field *)

(** Every invoice is on exactly one side of the test of the callback. *)
Lemma isPaid_status (invoice : Invoice) :
  isPaid invoice = true <-> status invoice = paid.
Proof. unfold isPaid. rewrite bool_decide_eq_true. reflexivity. Qed.

Lemma isPaid_false_status (invoice : Invoice) :
  isPaid invoice = false <-> status invoice <> paid.
Proof. unfold isPaid. rewrite bool_decide_eq_false. reflexivity. Qed.

Lemma paidOnes_cons (i : Invoice) (l : list Invoice) :
  paidOnes (i :: l) = if isPaid i then i :: paidOnes l else paidOnes l.
Proof.
  unfold paidOnes. rewrite filter_cons.
  destruct (isPaid i); case_decide; congruence.
Qed.

Lemma unpaidOnes_cons (i : Invoice) (l : list Invoice) :
  unpaidOnes (i :: l) = if isPaid i then unpaidOnes l else i :: unpaidOnes l.
Proof.
  unfold unpaidOnes. rewrite filter_cons.
  destruct (isPaid i); case_decide; congruence.
Qed.

Lemma overdueOnes_cons (today : Date) (i : Invoice) (l : list Invoice) :
  overdueOnes today (i :: l) =
  if isPaid i then overdueOnes today l
  else if date_lt (dueDate i) today then i :: overdueOnes today l
       else overdueOnes today l.
Proof.
  unfold overdueOnes. rewrite unpaidOnes_cons.
  destruct (isPaid i); [reflexivity |].
  rewrite filter_cons.
  destruct (date_lt (dueDate i) today); case_decide; congruence.
Qed.

(** Splitting the input by the test loses nothing. *)
Lemma paid_unpaid_length (l : list Invoice) :
  length (paidOnes l) + length (unpaidOnes l) = length l.
Proof.
  induction l as [| i l IH]; [reflexivity |].
  rewrite paidOnes_cons, unpaidOnes_cons.
  destruct (isPaid i); simpl; lia.
Qed.

Lemma paid_unpaid_Permutation (l : list Invoice) :
  paidOnes l ++ unpaidOnes l ≡ₚ l.
Proof.
  induction l as [| i l IH]; [reflexivity |].
  rewrite paidOnes_cons, unpaidOnes_cons.
  destruct (isPaid i); simpl.
  - by rewrite IH.
  - rewrite <- Permutation_middle. by rewrite IH.
Qed.

Lemma overdue_le_unpaid (today : Date) (l : list Invoice) :
  length (overdueOnes today l) <= length (unpaidOnes l).
Proof. unfold overdueOnes. apply length_filter. Qed.

Section Fold.

Variable today : Date.

(** Induction over the array with the accumulator generalised, then the
    case analysis of one step of the loop. *)
Ltac loop l s :=
  let i := fresh "i" in
  let IH := fresh "IH" in
  revert s; induction l as [| i l IH]; intros s;
  [ simpl; try lia; reflexivity
  | simpl; rewrite IH, ?paidOnes_cons, ?unpaidOnes_cons, ?overdueOnes_cons;
    unfold accumulate; destruct (isPaid i); simpl ].

Lemma fold_totalInvoices (l : list Invoice) (s : InvoiceStats) :
  totalInvoices (fold_left (accumulate today) l s) = totalInvoices s.
Proof.
  loop l s; reflexivity.
Qed.

Lemma fold_paidInvoices (l : list Invoice) (s : InvoiceStats) :
  paidInvoices (fold_left (accumulate today) l s) =
  paidInvoices s + length (paidOnes l).
Proof.
  loop l s; lia.
Qed.

Lemma fold_unpaidInvoices (l : list Invoice) (s : InvoiceStats) :
  unpaidInvoices (fold_left (accumulate today) l s) =
  unpaidInvoices s + length (unpaidOnes l).
Proof.
  loop l s; lia.
Qed.

Lemma fold_overdueInvoices (l : list Invoice) (s : InvoiceStats) :
  overdueInvoices (fold_left (accumulate today) l s) =
  overdueInvoices s + length (overdueOnes today l).
Proof.
  loop l s; [lia |].
  destruct (date_lt (dueDate _) today); simpl; lia.
Qed.

Lemma fold_totalRevenue (l : list Invoice) (s : InvoiceStats) :
  totalRevenue (fold_left (accumulate today) l s) =
  fold_left PrimFloat.add (total <$> paidOnes l) (totalRevenue s).
Proof.
  loop l s; reflexivity.
Qed.

Lemma fold_outstandingAmount (l : list Invoice) (s : InvoiceStats) :
  outstandingAmount (fold_left (accumulate today) l s) =
  fold_left PrimFloat.add (total <$> unpaidOnes l) (outstandingAmount s).
Proof.
  loop l s; reflexivity.
Qed.

End Fold.

(** The six fields of the result in closed form. *)
Lemma computeStats_fields (l : list Invoice) (today : Date) :
  computeStats l today =
  {| totalInvoices := length l;
     paidInvoices := length (paidOnes l);
     unpaidInvoices := length (unpaidOnes l);
     overdueInvoices := length (overdueOnes today l);
     totalRevenue := sumNumbers (total <$> paidOnes l);
     outstandingAmount := sumNumbers (total <$> unpaidOnes l) |}.
Proof.
  unfold computeStats, sumNumbers.
  pose proof (fold_totalInvoices today l (initialStats l)) as H1.
  pose proof (fold_paidInvoices today l (initialStats l)) as H2.
  pose proof (fold_unpaidInvoices today l (initialStats l)) as H3.
  pose proof (fold_overdueInvoices today l (initialStats l)) as H4.
  pose proof (fold_totalRevenue today l (initialStats l)) as H5.
  pose proof (fold_outstandingAmount today l (initialStats l)) as H6.
  destruct (fold_left (accumulate today) l (initialStats l)).
  simpl in *. congruence.
Qed.

(** ** Invariants of the result *)

(** C1: for every list of invoices and every time, the paid and the unpaid
    counters of the result add up to its total counter. *)
Theorem paid_plus_unpaid_is_total (invoices : list Invoice) (today : Date) :
  paidInvoices (computeStats invoices today)
  + unpaidInvoices (computeStats invoices today)
  = totalInvoices (computeStats invoices today).
Proof.
  rewrite computeStats_fields. simpl. apply paid_unpaid_length.
Qed.

(** C2: for every list of invoices and every time, the overdue counter of
    the result is at most its unpaid counter. *)
Theorem overdue_at_most_unpaid (invoices : list Invoice) (today : Date) :
  overdueInvoices (computeStats invoices today)
  <= unpaidInvoices (computeStats invoices today).
Proof.
  rewrite computeStats_fields. simpl. apply overdue_le_unpaid.
Qed.

(** ** One step of the loop *)

Lemma accumulate_paid (today : Date) (stats : InvoiceStats) (invoice : Invoice) :
  status invoice = paid ->
  accumulate today stats invoice =
  {| totalInvoices := totalInvoices stats;
     paidInvoices := paidInvoices stats + 1;
     unpaidInvoices := unpaidInvoices stats;
     overdueInvoices := overdueInvoices stats;
     totalRevenue := (totalRevenue stats + total invoice)%float;
     outstandingAmount := outstandingAmount stats |}.
Proof.
  intros Hp. apply isPaid_status in Hp. unfold accumulate. rewrite Hp.
  f_equal. lia.
Qed.

Lemma accumulate_unpaid (today : Date) (stats : InvoiceStats) (invoice : Invoice) :
  status invoice <> paid ->
  accumulate today stats invoice =
  {| totalInvoices := totalInvoices stats;
     paidInvoices := paidInvoices stats;
     unpaidInvoices := unpaidInvoices stats + 1;
     overdueInvoices :=
       overdueInvoices stats + (if date_lt (dueDate invoice) today then 1 else 0);
     totalRevenue := totalRevenue stats;
     outstandingAmount := (outstandingAmount stats + total invoice)%float |}.
Proof.
  intros Hp. apply isPaid_false_status in Hp. unfold accumulate. rewrite Hp.
  rewrite andb_true_r.
  destruct (date_lt (dueDate invoice) today); f_equal; lia.
Qed.

Lemma accumulate_withTotal (today : Date) (n : nat) (s : InvoiceStats) (i : Invoice) :
  accumulate today (withTotal n s) i = withTotal n (accumulate today s i).
Proof. unfold accumulate. by destruct (isPaid i). Qed.

Lemma fold_withTotal (today : Date) (n : nat) (l : list Invoice) (s : InvoiceStats) :
  fold_left (accumulate today) l (withTotal n s) =
  withTotal n (fold_left (accumulate today) l s).
Proof.
  revert s. induction l as [| i l IH]; intros s; [reflexivity |].
  simpl. by rewrite accumulate_withTotal, IH.
Qed.

(** The loop visits the elements in order: after one more element the
    stats are those of the prefix, stepped once, with the length of the
    longer array as total counter. *)
Lemma computeStats_snoc (today : Date) (l : list Invoice) (i : Invoice) :
  computeStats (l ++ [i]) today =
  accumulate today (withTotal (S (length l)) (computeStats l today)) i.
Proof.
  unfold computeStats. rewrite fold_left_app. simpl. f_equal.
  rewrite <- fold_withTotal. f_equal.
  unfold initialStats, withTotal. simpl.
  rewrite length_app, Nat.add_1_r. reflexivity.
Qed.

(** C3: one step of the loop, from any accumulated stats: a paid invoice
    increments [paidInvoices] and adds its total to [totalRevenue]; any
    other invoice increments [unpaidInvoices], adds its total to
    [outstandingAmount] and increments [overdueInvoices] exactly when its
    due date is strictly before the time of the call; nothing else changes.
    The loop starts from counters and sums at zero, applies the step to
    the elements in order, and [totalInvoices] is the length of the
    input. *)
Theorem aggregation_steps
    (today : Date) (stats : InvoiceStats) (invoice : Invoice)
    (invoices : list Invoice) :
  (status invoice = paid ->
   accumulate today stats invoice =
   {| totalInvoices := totalInvoices stats;
      paidInvoices := paidInvoices stats + 1;
      unpaidInvoices := unpaidInvoices stats;
      overdueInvoices := overdueInvoices stats;
      totalRevenue := (totalRevenue stats + total invoice)%float;
      outstandingAmount := outstandingAmount stats |})
  /\
  (status invoice <> paid ->
   accumulate today stats invoice =
   {| totalInvoices := totalInvoices stats;
      paidInvoices := paidInvoices stats;
      unpaidInvoices := unpaidInvoices stats + 1;
      overdueInvoices :=
        overdueInvoices stats
        + (if date_lt (dueDate invoice) today then 1 else 0);
      totalRevenue := totalRevenue stats;
      outstandingAmount := (outstandingAmount stats + total invoice)%float |})
  /\
  computeStats invoices today =
  fold_left (accumulate today) invoices
    {| totalInvoices := length invoices;
       paidInvoices := 0; unpaidInvoices := 0; overdueInvoices := 0;
       totalRevenue := 0%float; outstandingAmount := 0%float |}
  /\
  totalInvoices (computeStats invoices today) = length invoices
  /\
  computeStats (invoices ++ [invoice]) today =
  accumulate today
    {| totalInvoices := S (length invoices);
       paidInvoices := paidInvoices (computeStats invoices today);
       unpaidInvoices := unpaidInvoices (computeStats invoices today);
       overdueInvoices := overdueInvoices (computeStats invoices today);
       totalRevenue := totalRevenue (computeStats invoices today);
       outstandingAmount := outstandingAmount (computeStats invoices today) |}
    invoice.
Proof.
  split; [apply accumulate_paid |].
  split; [apply accumulate_unpaid |].
  split; [reflexivity |].
  split; [| apply computeStats_snoc].
  unfold computeStats. apply fold_totalInvoices.
Qed.

Lemma aggregation_steps_witness :
  accumulate (Some 10%Z) (computeStats [inv sent 50 5] (Some 10%Z)) (inv paid 100 20) =
  {| totalInvoices := 1; paidInvoices := 1; unpaidInvoices := 1;
     overdueInvoices := 1; totalRevenue := 100%float;
     outstandingAmount := 50%float |}
  /\
  accumulate (Some 10%Z) (computeStats [inv paid 100 20] (Some 10%Z)) (inv sent 50 5) =
  {| totalInvoices := 1; paidInvoices := 1; unpaidInvoices := 1;
     overdueInvoices := 1; totalRevenue := 100%float;
     outstandingAmount := 50%float |}.
Proof.
  split.
  - rewrite (proj1 (aggregation_steps (Some 10%Z)
                      (computeStats [inv sent 50 5] (Some 10%Z))
                      (inv paid 100 20) [])); reflexivity.
  - rewrite (proj1 (proj2 (aggregation_steps (Some 10%Z)
                      (computeStats [inv paid 100 20] (Some 10%Z))
                      (inv sent 50 5) []))); [reflexivity | discriminate].
Defined.

(** ** Scenarios *)

(** C4: on the empty list the aggregation returns a record whose six fields
    are all zero, whatever the time. *)
Theorem computeStats_nil (today : Date) :
  computeStats [] today =
  {| totalInvoices := 0; paidInvoices := 0; unpaidInvoices := 0;
     overdueInvoices := 0; totalRevenue := 0%float;
     outstandingAmount := 0%float |}.
Proof. reflexivity. Qed.

(** C6: one paid invoice of 100 and one sent invoice of 50 that was due
    strictly before the time of the call give two invoices, one paid, one
    unpaid, one overdue, a revenue of 100 and 50 outstanding. *)
Theorem paid_and_overdue_scenario (due1 : Date) (yesterday today : Z) :
  (yesterday < today)%Z ->
  computeStats
    [ {| status := paid; total := 100; dueDate := due1 |};
      {| status := sent; total := 50; dueDate := Some yesterday |} ]
    (Some today)
  = {| totalInvoices := 2; paidInvoices := 1; unpaidInvoices := 1;
       overdueInvoices := 1; totalRevenue := 100; outstandingAmount := 50 |}.
Proof.
  intros Hlt. apply Z.ltb_lt in Hlt.
  unfold computeStats, accumulate, isPaid. simpl. rewrite Hlt. reflexivity.
Qed.

Lemma paid_and_overdue_scenario_witness :
  computeStats [inv paid 100 0; inv sent 50 1761955200000]
               (Some 1762041600000%Z)
  = {| totalInvoices := 2; paidInvoices := 1; unpaidInvoices := 1;
       overdueInvoices := 1; totalRevenue := 100; outstandingAmount := 50 |}.
Proof.
  apply (paid_and_overdue_scenario (Some 0%Z) 1761955200000 1762041600000).
  reflexivity.
Defined.

(** C7: when every invoice of the input is paid, the result has no unpaid
    and no overdue invoice and nothing outstanding. *)
Theorem all_paid_scenario (invoices : list Invoice) (today : Date) :
  Forall (fun i => status i = paid) invoices ->
  overdueInvoices (computeStats invoices today) = 0
  /\ outstandingAmount (computeStats invoices today) = 0%float
  /\ unpaidInvoices (computeStats invoices today) = 0.
Proof.
  intros Hall.
  assert (unpaidOnes invoices = []) as Hnone.
  { induction Hall as [| i l Hi _ IH]; [reflexivity |].
    rewrite unpaidOnes_cons. apply isPaid_status in Hi. by rewrite Hi. }
  rewrite computeStats_fields. simpl.
  unfold overdueOnes. rewrite Hnone. by rewrite filter_nil.
Qed.

Lemma all_paid_scenario_witness :
  overdueInvoices (computeStats [inv paid 10 1; inv paid 20 2] (Some 5%Z)) = 0
  /\ outstandingAmount (computeStats [inv paid 10 1; inv paid 20 2] (Some 5%Z))
     = 0%float
  /\ unpaidInvoices (computeStats [inv paid 10 1; inv paid 20 2] (Some 5%Z)) = 0.
Proof.
  apply (all_paid_scenario [inv paid 10 1; inv paid 20 2] (Some 5%Z)).
  repeat constructor.
Defined.

(** ** The effectful wrapper *)

(** When the fetch resolves, [getInvoiceStats] resolves with the fold over
    the fetched list at the time read from the clock, and leaves the world
    as it found it. *)
Lemma getInvoiceStats_resolved (userId : string) (w : World) (l : list Invoice) :
  fetch w userId = Resolved l ->
  getInvoiceStats userId w = (Resolved (computeStats l (Some (now w))), w).
Proof.
  intros Hf.
  unfold getInvoiceStats, getUserInvoices, try_catch, bind, getDocs, newDate, ret.
  rewrite Hf. reflexivity.
Qed.

(** When the fetch rejects, both handlers run: each writes one line to the
    console and rethrows, keeping a non-empty message. *)
Lemma getInvoiceStats_rejected (userId : string) (w : World) (e : string) :
  fetch w userId = Rejected e ->
  getInvoiceStats userId w =
  (Rejected (or_else (or_else e "Failed to fetch invoices")
                     "Failed to calculate stats"),
   {| fetch := fetch w; now := now w;
      console := "Error calculating invoice stats:"
                 :: "Error fetching invoices:" :: console w |}).
Proof.
  intros Hf.
  unfold getInvoiceStats, getUserInvoices, try_catch, bind, getDocs,
    console_error, throw.
  rewrite Hf. reflexivity.
Qed.

(** A resolved call went through the fold. *)
Lemma getInvoiceStats_inv (userId : string) (w w' : World) (stats : InvoiceStats) :
  getInvoiceStats userId w = (Resolved stats, w') ->
  exists l, fetch w userId = Resolved l
            /\ stats = computeStats l (Some (now w)) /\ w' = w.
Proof.
  intros Hrun. destruct (fetch w userId) as [l | e] eqn:Hf.
  - rewrite (getInvoiceStats_resolved _ _ _ Hf) in Hrun.
    exists l. split; [reflexivity |]. split; congruence.
  - rewrite (getInvoiceStats_rejected _ _ _ Hf) in Hrun. discriminate.
Qed.

(** The invariants of the fold hold of every record that
    [getInvoiceStats] resolves with. *)
Lemma getInvoiceStats_invariants (userId : string) (w w' : World) (stats : InvoiceStats) :
  getInvoiceStats userId w = (Resolved stats, w') ->
  paidInvoices stats + unpaidInvoices stats = totalInvoices stats
  /\ overdueInvoices stats <= unpaidInvoices stats.
Proof.
  intros Hrun. apply getInvoiceStats_inv in Hrun as (l & _ & -> & _).
  rewrite computeStats_fields. simpl.
  split; [apply paid_unpaid_length | apply overdue_le_unpaid].
Qed.

Example getInvoiceStats_alice :
  getInvoiceStats "alice" (worldAt 20) =
  (Resolved {| totalInvoices := 1; paidInvoices := 0; unpaidInvoices := 1;
               overdueInvoices := 1; totalRevenue := 0;
               outstandingAmount := 50 |},
   worldAt 20).
Proof. reflexivity. Qed.

Example getInvoiceStats_bob :
  getInvoiceStats "bob" (worldAt 20) =
  (Rejected "permission-denied",
   {| fetch := sampleFetch; now := 20;
      console := ["Error calculating invoice stats:";
                  "Error fetching invoices:"] |}).
Proof. reflexivity. Qed.

(** C9: the aggregation raises nothing: whenever the fetch delivers a list
    of invoices, [getInvoiceStats] resolves, with the stats of that list. *)
Theorem aggregation_cannot_fail (userId : string) (w : World) (invoices : list Invoice) :
  fetch w userId = Resolved invoices ->
  exists stats : InvoiceStats,
    fst (getInvoiceStats userId w) = Resolved stats
    /\ stats = computeStats invoices (Some (now w)).
Proof.
  intros Hf. eexists. rewrite (getInvoiceStats_resolved _ _ _ Hf).
  split; reflexivity.
Qed.

Lemma aggregation_cannot_fail_witness :
  exists stats : InvoiceStats,
    fst (getInvoiceStats "alice" (worldAt 20)) = Resolved stats
    /\ stats = computeStats [inv sent 50 10] (Some (now (worldAt 20))).
Proof.
  apply (aggregation_cannot_fail "alice" (worldAt 20) [inv sent 50 10]).
  reflexivity.
Defined.




(** ** Order of the input *)

(** The paid invoices of a reordered input are the paid invoices of the
    input, reordered; likewise for the unpaid and the overdue ones. *)
Lemma paidOnes_Permutation (l l' : list Invoice) :
  l ≡ₚ l' -> paidOnes l ≡ₚ paidOnes l'.
Proof. intros Hp. unfold paidOnes. by rewrite Hp. Qed.

Lemma unpaidOnes_Permutation (l l' : list Invoice) :
  l ≡ₚ l' -> unpaidOnes l ≡ₚ unpaidOnes l'.
Proof. intros Hp. unfold unpaidOnes. by rewrite Hp. Qed.

Lemma overdueOnes_Permutation (today : Date) (l l' : list Invoice) :
  l ≡ₚ l' -> overdueOnes today l ≡ₚ overdueOnes today l'.
Proof.
  intros Hp. unfold overdueOnes. by rewrite (unpaidOnes_Permutation _ _ Hp).
Qed.

(** C5, as stated, fails: three paid invoices of 0.1, 0.2 and 0.3 give a
    revenue of 0.6000000000000001 in this order and of 0.6 in the reverse
    order, because the sums are accumulated in binary64 arithmetic. *)
Lemma reordering_changes_the_sums :
  [inv paid 0.1 0; inv paid 0.2 0; inv paid 0.3 0]
    ≡ₚ [inv paid 0.3 0; inv paid 0.2 0; inv paid 0.1 0]
  /\ totalRevenue
       (computeStats [inv paid 0.1 0; inv paid 0.2 0; inv paid 0.3 0] (Some 0%Z))
     = 0.6000000000000001%float
  /\ totalRevenue
       (computeStats [inv paid 0.3 0; inv paid 0.2 0; inv paid 0.1 0] (Some 0%Z))
     = 0.6%float
  /\ computeStats [inv paid 0.1 0; inv paid 0.2 0; inv paid 0.3 0] (Some 0%Z)
     <> computeStats [inv paid 0.3 0; inv paid 0.2 0; inv paid 0.1 0] (Some 0%Z).
Proof.
  split; [| split; [reflexivity | split; [reflexivity |]]].
  - change [inv paid 0.3 0; inv paid 0.2 0; inv paid 0.1 0]
      with (reverse [inv paid 0.1 0; inv paid 0.2 0; inv paid 0.3 0]).
    by rewrite reverse_Permutation.
  - intros H. apply (f_equal totalRevenue) in H. vm_compute in H.
    discriminate H.
Qed.

(** C5, amended: on a reordered input the four counters are the same, and
    each of the two sums is the left-to-right sum, in the order of the
    reordered input, of the same totals: the revenue adds the totals of
    the paid invoices of the reordered input one after the other, the
    outstanding amount those of its other invoices, and these totals are
    those of the original input up to their order.  A sum is the same
    whenever the totals it adds come in the same order in both inputs. *)
Theorem reordering_keeps_the_counters (l l' : list Invoice) (today : Date) :
  l ≡ₚ l' ->
  totalInvoices (computeStats l' today) = totalInvoices (computeStats l today)
  /\ paidInvoices (computeStats l' today) = paidInvoices (computeStats l today)
  /\ unpaidInvoices (computeStats l' today) = unpaidInvoices (computeStats l today)
  /\ overdueInvoices (computeStats l' today) = overdueInvoices (computeStats l today)
  /\ totalRevenue (computeStats l' today) = sumNumbers (total <$> paidOnes l')
  /\ outstandingAmount (computeStats l' today)
     = sumNumbers (total <$> unpaidOnes l')
  /\ total <$> paidOnes l' ≡ₚ total <$> paidOnes l
  /\ total <$> unpaidOnes l' ≡ₚ total <$> unpaidOnes l
  /\ (total <$> paidOnes l' = total <$> paidOnes l ->
      totalRevenue (computeStats l' today) = totalRevenue (computeStats l today))
  /\ (total <$> unpaidOnes l' = total <$> unpaidOnes l ->
      outstandingAmount (computeStats l' today)
      = outstandingAmount (computeStats l today)).
Proof.
  intros Hp. rewrite !computeStats_fields. simpl.
  repeat split.
  - by rewrite Hp.
  - by rewrite (paidOnes_Permutation _ _ Hp).
  - by rewrite (unpaidOnes_Permutation _ _ Hp).
  - by rewrite (overdueOnes_Permutation today _ _ Hp).
  - by rewrite (paidOnes_Permutation _ _ Hp).
  - by rewrite (unpaidOnes_Permutation _ _ Hp).
  - intros Heq. by rewrite Heq.
  - intros Heq. by rewrite Heq.
Qed.

Lemma reordering_keeps_the_counters_witness :
  totalInvoices (computeStats sampleReordered (Some 7%Z))
  = totalInvoices (computeStats sampleInvoices (Some 7%Z))
  /\ paidInvoices (computeStats sampleReordered (Some 7%Z))
     = paidInvoices (computeStats sampleInvoices (Some 7%Z))
  /\ unpaidInvoices (computeStats sampleReordered (Some 7%Z))
     = unpaidInvoices (computeStats sampleInvoices (Some 7%Z))
  /\ overdueInvoices (computeStats sampleReordered (Some 7%Z))
     = overdueInvoices (computeStats sampleInvoices (Some 7%Z))
  /\ totalRevenue (computeStats sampleReordered (Some 7%Z))
     = sumNumbers (total <$> paidOnes sampleReordered)
  /\ outstandingAmount (computeStats sampleReordered (Some 7%Z))
     = sumNumbers (total <$> unpaidOnes sampleReordered).
Proof.
  pose proof (reordering_keeps_the_counters sampleInvoices sampleReordered
                (Some 7%Z)) as H.
  destruct H as (H1 & H2 & H3 & H4 & H5 & H6 & _).
  - unfold sampleReordered, sampleInvoices.
    apply perm_swap.
  - auto 10.
Defined.

(** ** The two sums together *)

(** With two paid invoices of 0.1 and two sent invoices of 0.6 and 0.7 the
    revenue plus the outstanding amount is 1.4999999999999998; the four
    totals add up to 1.5 in each of their 24 orders. *)
Lemma split_sums_all_orders :
  Forall
    (fun xs : list number =>
       (totalRevenue (computeStats splitInvoices (Some 0%Z))
        + outstandingAmount (computeStats splitInvoices (Some 0%Z)))%float
       <> sumNumbers xs)
    (permutations (total <$> splitInvoices)).
Proof.
  vm_compute. repeat (constructor; [discriminate |]). constructor.
Qed.

Lemma split_sums_any_order (xs : list number) :
  xs ≡ₚ total <$> splitInvoices ->
  (totalRevenue (computeStats splitInvoices (Some 0%Z))
   + outstandingAmount (computeStats splitInvoices (Some 0%Z)))%float
  <> sumNumbers xs.
Proof.
  intros Hp. symmetry in Hp. apply permutations_Permutation in Hp.
  revert xs Hp. apply Forall_forall, split_sums_all_orders.
Qed.

(** C10, as stated, fails: for that input the revenue is 0.2 and the
    outstanding amount 1.2999999999999998, so their sum is not the sum of
    the totals, neither in the order of the input nor in any other. *)
Lemma split_sums_miss_the_total :
  totalRevenue (computeStats splitInvoices (Some 0%Z)) = 0.2%float
  /\ outstandingAmount (computeStats splitInvoices (Some 0%Z))
     = 1.2999999999999998%float
  /\ sumNumbers (total <$> splitInvoices) = 1.5%float
  /\ (totalRevenue (computeStats splitInvoices (Some 0%Z))
      + outstandingAmount (computeStats splitInvoices (Some 0%Z)))%float
     <> sumNumbers (total <$> splitInvoices)
  /\ Forall
       (fun xs : list number =>
          (totalRevenue (computeStats splitInvoices (Some 0%Z))
           + outstandingAmount (computeStats splitInvoices (Some 0%Z)))%float
          <> sumNumbers xs)
       (permutations (total <$> splitInvoices)).
Proof.
  split; [reflexivity |]. split; [reflexivity |]. split; [reflexivity |].
  split; [apply split_sums_any_order; reflexivity |].
  apply split_sums_all_orders.
Qed.

(** C10, amended: the revenue is the left-to-right sum of the totals of the
    paid invoices, the outstanding amount that of the totals of the other
    invoices, and every invoice of the input is in exactly one of the two
    groups. *)
Theorem every_total_in_one_sum (invoices : list Invoice) (today : Date) :
  totalRevenue (computeStats invoices today)
  = sumNumbers (total <$> paidOnes invoices)
  /\ outstandingAmount (computeStats invoices today)
     = sumNumbers (total <$> unpaidOnes invoices)
  /\ paidOnes invoices ++ unpaidOnes invoices ≡ₚ invoices
  /\ (forall i, i ∈ paidOnes invoices -> i ∉ unpaidOnes invoices).
Proof.
  rewrite computeStats_fields. simpl.
  split; [reflexivity |]. split; [reflexivity |].
  split; [apply paid_unpaid_Permutation |].
  intros i Hin Hout. unfold paidOnes, unpaidOnes in *.
  apply list_elem_of_filter in Hin, Hout. destruct Hin, Hout. congruence.
Qed.

(** * Further properties of the invoice statistics *)

(** ** Failure of the fetch *)

(** X1: [getUserInvoices] hands over the fetched list and leaves the world as
    it is; when the fetch fails it writes one line to the console and
    rejects with the message of the failure, or with its own default when
    that message is empty.  The message it rejects with is never empty. *)
Theorem getUserInvoices_outcome (userId : string) (w : World) :
  match fetch w userId with
  | Resolved l => getUserInvoices userId w = (Resolved l, w)
  | Rejected e =>
      exists m,
        getUserInvoices userId w =
        (Rejected m,
         {| fetch := fetch w; now := now w;
            console := "Error fetching invoices:" :: console w |})
        /\ m <> ""%string
        /\ (e <> ""%string -> m = e)
        /\ (e = ""%string -> m = "Failed to fetch invoices"%string)
  end.
Proof.
  unfold getUserInvoices, try_catch, getDocs, bind, console_error, throw.
  destruct (fetch w userId) as [l | e]; [reflexivity |].
  exists (or_else e "Failed to fetch invoices"). split; [reflexivity |].
  unfold or_else. case_decide; repeat split; congruence.
Qed.

Lemma or_else_nonempty (s d : string) :
  d <> ""%string -> or_else s d <> ""%string.
Proof. unfold or_else. case_decide; congruence. Qed.

Lemma or_else_keeps (s d : string) : s <> ""%string -> or_else s d = s.
Proof. unfold or_else. case_decide; congruence. Qed.

Lemma getUserInvoices_rejected_inv (userId : string) (w w' : World) (m : string) :
  getUserInvoices userId w = (Rejected m, w') ->
  exists e, fetch w userId = Rejected e
            /\ m = or_else e "Failed to fetch invoices"
            /\ w' = {| fetch := fetch w; now := now w;
                       console := "Error fetching invoices:" :: console w |}.
Proof.
  unfold getUserInvoices, try_catch, getDocs, bind, console_error, throw.
  destruct (fetch w userId) as [l | e]; [discriminate |].
  intros [= <- <-]. by exists e.
Qed.

(** X2: a failure of [getUserInvoices] passes through [getInvoiceStats] with
    its message unchanged: the second handler adds its own line to the
    console, and its default message is never used. *)
Theorem getInvoiceStats_passes_failure
    (userId : string) (w w' : World) (m : string) :
  getUserInvoices userId w = (Rejected m, w') ->
  getInvoiceStats userId w =
  (Rejected m,
   {| fetch := fetch w'; now := now w';
      console := "Error calculating invoice stats:" :: console w' |}).
Proof.
  intros Hrun.
  destruct (getUserInvoices_rejected_inv _ _ _ _ Hrun) as (e & Hf & -> & ->).
  rewrite (getInvoiceStats_rejected _ _ _ Hf). simpl.
  rewrite (or_else_keeps (or_else e _)); [reflexivity |].
  by apply or_else_nonempty.
Qed.

Lemma getInvoiceStats_passes_failure_witness :
  getInvoiceStats "bob" (worldAt 20) =
  (Rejected "permission-denied",
   {| fetch := sampleFetch; now := 20;
      console := ["Error calculating invoice stats:";
                  "Error fetching invoices:"] |}).
Proof.
  apply (getInvoiceStats_passes_failure "bob" (worldAt 20)
           {| fetch := sampleFetch; now := 20;
              console := ["Error fetching invoices:"] |}
           "permission-denied").
  reflexivity.
Defined.

(** ** The role of the time of the call *)

(** X3: only the overdue counter depends on the time of the call. *)
Theorem today_only_moves_overdue (invoices : list Invoice) (t1 t2 : Date) :
  computeStats invoices t2 =
  {| totalInvoices := totalInvoices (computeStats invoices t1);
     paidInvoices := paidInvoices (computeStats invoices t1);
     unpaidInvoices := unpaidInvoices (computeStats invoices t1);
     overdueInvoices := overdueInvoices (computeStats invoices t2);
     totalRevenue := totalRevenue (computeStats invoices t1);
     outstandingAmount := outstandingAmount (computeStats invoices t1) |}.
Proof. rewrite !computeStats_fields. reflexivity. Qed.

Lemma date_lt_mono (d : Date) (t1 t2 : Z) :
  (t1 <= t2)%Z -> date_lt d (Some t1) = true -> date_lt d (Some t2) = true.
Proof.
  destruct d as [x |]; simpl; [| done].
  rewrite !Z.ltb_lt. lia.
Qed.

(** X4: the later the call, the more invoices are overdue. *)
Theorem overdue_grows_with_time (invoices : list Invoice) (t1 t2 : Z) :
  (t1 <= t2)%Z ->
  overdueInvoices (computeStats invoices (Some t1))
  <= overdueInvoices (computeStats invoices (Some t2)).
Proof.
  intros Hle. rewrite !computeStats_fields. simpl.
  induction invoices as [| i l IH]; [reflexivity |].
  rewrite !overdueOnes_cons. destruct (isPaid i); [exact IH |].
  destruct (date_lt (dueDate i) (Some t1)) eqn:H1.
  - rewrite (date_lt_mono _ _ _ Hle H1). simpl. lia.
  - destruct (date_lt (dueDate i) (Some t2)); simpl; lia.
Qed.

Lemma overdue_grows_with_time_witness :
  overdueInvoices (computeStats sampleInvoices (Some 4%Z))
  <= overdueInvoices (computeStats sampleInvoices (Some 7%Z)).
Proof.
  apply (overdue_grows_with_time sampleInvoices 4 7). lia.
Defined.

(** X5: an invoice is overdue for the statistics exactly when it is not paid
    and its due date is valid and strictly before the time of the call:
    no invoice is overdue iff none is such, and every unpaid invoice is
    overdue iff all of them are such.  An invoice due at the very time of
    the call is not overdue. *)
Theorem overdue_bounds_reached (invoices : list Invoice) (today : Date) :
  (overdueInvoices (computeStats invoices today) = 0
   <-> Forall (fun i => status i <> paid -> date_lt (dueDate i) today = false)
         invoices)
  /\
  (overdueInvoices (computeStats invoices today)
   = unpaidInvoices (computeStats invoices today)
   <-> Forall (fun i => status i <> paid -> date_lt (dueDate i) today = true)
         invoices).
Proof.
  rewrite computeStats_fields. simpl. split.
  - induction invoices as [| i l IH]; [by split; [constructor |] |].
    rewrite overdueOnes_cons, Forall_cons, <- isPaid_false_status.
    destruct (isPaid i); [intuition congruence |].
    destruct (date_lt (dueDate i) today); simpl; intuition congruence.
  - induction invoices as [| i l IH]; [by split; [constructor |] |].
    rewrite overdueOnes_cons, unpaidOnes_cons, Forall_cons,
      <- isPaid_false_status.
    pose proof (overdue_le_unpaid today l) as Hle.
    destruct (isPaid i); [intuition congruence |].
    destruct (date_lt (dueDate i) today); simpl.
    + split.
      * intros [= Heq]. split; [reflexivity | by apply IH].
      * intros [_ Hall]. f_equal. by apply IH.
    + split; [intros Heq; exfalso; lia | intuition congruence].
Qed.

(** X6: the statistics look at the status of an invoice only to tell paid from
    not paid: draft, sent, overdue and cancelled invoices are all counted
    alike, and the status [overdue] plays no part in the overdue counter. *)
Theorem only_paid_or_not_matters (l l' : list Invoice) (today : Date) :
  Forall2 (fun i j => (status i = paid <-> status j = paid)
                      /\ total i = total j /\ dueDate i = dueDate j) l l' ->
  computeStats l today = computeStats l' today.
Proof.
  intros Hall. unfold computeStats.
  assert (initialStats l = initialStats l') as ->.
  { unfold initialStats. by rewrite (Forall2_length _ _ _ Hall). }
  generalize (initialStats l').
  induction Hall as [| i j l l' (Hs & Ht & Hd) _ IH]; intros s; [reflexivity |].
  simpl. rewrite <- IH. f_equal. unfold accumulate.
  assert (isPaid i = isPaid j) as ->.
  { unfold isPaid. apply bool_decide_ext, Hs. }
  by rewrite Ht, Hd.
Qed.

Lemma only_paid_or_not_matters_witness :
  computeStats [inv paid 100 3; inv cancelled 50 5; inv overdue 20 9] (Some 7%Z)
  = computeStats sampleInvoices (Some 7%Z).
Proof.
  apply (only_paid_or_not_matters
           [inv paid 100 3; inv cancelled 50 5; inv overdue 20 9]
           sampleInvoices (Some 7%Z)).
  unfold sampleInvoices.
  repeat (constructor; [split; [split; intros H; (reflexivity || discriminate H) | split; reflexivity] |]).
  constructor.
Defined.

(** X7: statistics of a list in two parts: the counters of the whole are the
    sums of the counters of the parts, and the two sums of the whole
    continue those of the first part with the totals of the second. *)
Theorem computeStats_app (l1 l2 : list Invoice) (today : Date) :
  totalInvoices (computeStats (l1 ++ l2) today)
  = totalInvoices (computeStats l1 today) + totalInvoices (computeStats l2 today)
  /\ paidInvoices (computeStats (l1 ++ l2) today)
     = paidInvoices (computeStats l1 today) + paidInvoices (computeStats l2 today)
  /\ unpaidInvoices (computeStats (l1 ++ l2) today)
     = unpaidInvoices (computeStats l1 today)
       + unpaidInvoices (computeStats l2 today)
  /\ overdueInvoices (computeStats (l1 ++ l2) today)
     = overdueInvoices (computeStats l1 today)
       + overdueInvoices (computeStats l2 today)
  /\ totalRevenue (computeStats (l1 ++ l2) today)
     = fold_left PrimFloat.add (total <$> paidOnes l2)
         (totalRevenue (computeStats l1 today))
  /\ outstandingAmount (computeStats (l1 ++ l2) today)
     = fold_left PrimFloat.add (total <$> unpaidOnes l2)
         (outstandingAmount (computeStats l1 today)).
Proof.
  rewrite !computeStats_fields. simpl.
  unfold overdueOnes, paidOnes, unpaidOnes, sumNumbers.
  rewrite !filter_app, !fmap_app, !fold_left_app, !length_app.
  repeat split; reflexivity.
Qed.

(** * The catch blocks *)

Module SdkFacts.

Import Sdk.

Section WithTimestamps.

Context `{TimestampApi}.

(** X8: every [async] function of the two files ends with the same handler.
    With it, a function resolves exactly when its body does, with the same
    value and the same effects; when the body throws, the function writes
    one line to the console, with its label and the error, and throws an
    error with the same message, or with the fallback when the message is
    empty. *)
Theorem guarded_outcome {A} (label fallback : string) (body : Run A)
    (env : Env) (st : State) :
  match body env st with
  | (Resolved a, st') => guarded label fallback body env st = (Resolved a, st')
  | (Rejected e, st') =>
      exists m,
        guarded label fallback body env st =
        (Rejected m,
         {| calls := calls st'; reads := reads st';
            errors := (label, e) :: errors st'; progress := progress st' |})
        /\ (e <> ""%string -> m = e)
        /\ (e = ""%string -> m = fallback)
        /\ (fallback <> ""%string -> m <> ""%string)
  end.
Proof.
  unfold guarded, catch, andThen, consoleError, raise.
  destruct (body env st) as [[a | e] st']; [reflexivity |].
  exists (or_else e fallback). split; [reflexivity |].
  unfold or_else. case_decide; repeat split; congruence.
Qed.

(** A guarded body that starts with a request, run step by step. *)
Lemma guarded_request_then {A B} (label fallback : string)
    (answer : Env -> list Call -> outcome A) (c : Call) (k : A -> Run B)
    (env : Env) (st : State) :
  guarded label fallback (x <- request answer c ;; k x)%sdk env st =
  match answer env (c :: calls st) with
  | Rejected e =>
      (Rejected (or_else e fallback),
       {| calls := c :: calls st; reads := reads st;
          errors := (label, e) :: errors st; progress := progress st |})
  | Resolved a =>
      match k a env {| calls := c :: calls st; reads := reads st;
                       errors := errors st; progress := progress st |} with
      | (Resolved b, st2) => (Resolved b, st2)
      | (Rejected e, st2) =>
          (Rejected (or_else e fallback),
           {| calls := calls st2; reads := reads st2;
              errors := (label, e) :: errors st2; progress := progress st2 |})
      end
  end.
Proof.
  unfold guarded, catch, andThen, request, consoleError, raise.
  destruct (answer env (c :: calls st)) as [a | e]; [| reflexivity].
  by destruct (k a env _) as [[b | e] st2].
Qed.

End WithTimestamps.

End SdkFacts.

(** * File uploads *)

Module StorageFacts.

Import Sdk Storage.

(** ** Splitting a file name *)

Lemma split_nonempty (sep : ascii) (s : string) : split sep s <> [].
Proof.
  induction s as [| c s IH]; simpl; [discriminate |].
  case_decide; [discriminate |].
  destruct (split sep s); [contradiction | discriminate].
Qed.

Lemma split_cons_sep (sep : ascii) (s : string) :
  split sep (String sep s) = EmptyString :: split sep s.
Proof. simpl. by rewrite decide_True. Qed.

Lemma split_cons_other (sep c : ascii) (s : string) :
  c <> sep ->
  exists piece pieces,
    split sep s = piece :: pieces
    /\ split sep (String c s) = String c piece :: pieces.
Proof.
  intros Hc. simpl. case_decide; [contradiction |].
  pose proof (split_nonempty sep s) as Hne.
  destruct (split sep s) as [| piece pieces]; [contradiction |].
  by exists piece, pieces.
Qed.

Lemma join_cons_char (sep c : ascii) (piece : string) (pieces : list string) :
  join sep (String c piece :: pieces) = String c (join sep (piece :: pieces)).
Proof. by destruct pieces. Qed.

Lemma join_split (sep : ascii) (s : string) : join sep (split sep s) = s.
Proof.
  induction s as [| c s IH]; [reflexivity |].
  destruct (decide (c = sep)) as [-> | Hc].
  - simpl split. rewrite decide_True by reflexivity.
    pose proof (split_nonempty sep s) as Hne.
    destruct (split sep s) as [| piece pieces]; [contradiction |].
    change (join sep ("" :: piece :: pieces))
      with (String sep (join sep (piece :: pieces))).
    by rewrite IH.
  - destruct (split_cons_other sep c s Hc) as (piece & pieces & Hs & ->).
    rewrite Hs in IH. by rewrite join_cons_char, IH.
Qed.

Lemma split_pieces_clean (sep : ascii) (s : string) :
  Forall (fun piece => occurs sep piece = false) (split sep s).
Proof.
  induction s as [| c s IH]; [by repeat constructor |].
  destruct (decide (c = sep)) as [-> | Hc].
  - simpl. rewrite decide_True by reflexivity. by constructor.
  - destruct (split_cons_other sep c s Hc) as (piece & pieces & Hs & ->).
    rewrite Hs in IH. inversion IH as [| ? ? Hp Hps]; subst.
    constructor; [| assumption].
    simpl. rewrite Hp. by rewrite bool_decide_eq_false_2.
Qed.

Lemma split_clean (sep : ascii) (s : string) :
  occurs sep s = false -> split sep s = [s].
Proof.
  induction s as [| c s IH]; [reflexivity |].
  simpl. intros [Hc Hs]%orb_false_elim.
  apply bool_decide_eq_false in Hc. rewrite decide_False by assumption.
  by rewrite (IH Hs).
Qed.

Lemma split_app (sep : ascii) (a b : string) :
  split sep (a +:+ String sep b) = split sep a ++ split sep b.
Proof.
  induction a as [| c a IH].
  - apply split_cons_sep.
  - change (String c a +:+ String sep b) with (String c (a +:+ String sep b)).
    destruct (decide (c = sep)) as [-> | Hc].
    + by rewrite !split_cons_sep, IH.
    + destruct (split_cons_other sep c a Hc) as (p & ps & Ha & ->).
      destruct (split_cons_other sep c (a +:+ String sep b) Hc)
        as (q & qs & Hab & ->).
      rewrite IH, Ha in Hab. simpl in Hab. by injection Hab as <- <-.
Qed.

Lemma last_app_nonempty {A} (xs ys : list A) :
  ys <> [] -> last (xs ++ ys) = last ys.
Proof.
  intros Hne. destruct ys as [| y ys _] using rev_ind; [contradiction |].
  by rewrite app_assoc, !last_snoc.
Qed.

(** X9: the pieces of a name put together again with dots give the name; no
    piece contains a dot, and there is always at least one piece. *)
Theorem split_join_round_trip (s : string) :
  join "." (split "." s) = s
  /\ split "." s <> []
  /\ Forall (fun piece => occurs "." piece = false) (split "." s).
Proof.
  split; [apply join_split |].
  split; [apply split_nonempty | apply split_pieces_clean].
Qed.

Lemma fileExtension_spec (fileName : string) :
  exists ext,
    fileExtension fileName = Some ext
    /\ occurs "." ext = false
    /\ (occurs "." fileName = false -> ext = fileName)
    /\ (forall base rest,
          fileName = base +:+ String "." rest ->
          occurs "." rest = false -> ext = rest).
Proof.
  unfold fileExtension, pop.
  pose proof (split_nonempty "." fileName) as Hne.
  pose proof (split_pieces_clean "." fileName) as Hclean.
  destruct (split "." fileName) as [| p ps _] eqn:Hs using rev_ind;
    [contradiction |].
  rewrite last_snoc. exists p. split; [reflexivity |].
  apply Forall_app in Hclean as [_ Hp]. inversion Hp; subst.
  split; [assumption |]. split.
  - intros Hnone. rewrite (split_clean _ _ Hnone) in Hs.
    apply (f_equal last) in Hs. rewrite last_snoc in Hs. simpl in Hs.
    congruence.
  - intros base rest -> Hrest.
    rewrite split_app, (split_clean _ _ Hrest) in Hs.
    apply (f_equal last) in Hs. rewrite !last_snoc in Hs. congruence.
Qed.

(** X10: the extension that the upload functions take from a file name is
    always defined and never contains a dot.  It is what follows the last
    dot of the name; a name without a dot is its own extension. *)
Theorem fileExtension_is_last_piece (fileName : string) :
  exists ext,
    fileExtension fileName = Some ext
    /\ occurs "." ext = false
    /\ (occurs "." fileName = false -> ext = fileName)
    /\ (forall base rest,
          fileName = base +:+ String "." rest ->
          occurs "." rest = false -> ext = rest).
Proof. apply fileExtension_spec. Qed.

(** ** Object names *)

Lemma to_list_app (s1 s2 : string) :
  String.list_ascii_of_string (s1 +:+ s2)
  = String.list_ascii_of_string s1 ++ String.list_ascii_of_string s2.
Proof. induction s1 as [| c s1 IH]; simpl; by rewrite ?IH. Qed.

Lemma app_inj_tail (s1 s2 t : string) : s1 +:+ t = s2 +:+ t -> s1 = s2.
Proof.
  intros Heq. apply (f_equal String.list_ascii_of_string) in Heq.
  rewrite !to_list_app in Heq. apply app_inv_tail in Heq.
  apply (f_equal String.string_of_list_ascii) in Heq.
  by rewrite !String.string_of_list_ascii_of_string in Heq.
Qed.

(** Two strings that start with a piece free of [sep], followed by [sep],
    agree only if the pieces agree. *)
Lemma clean_prefix_inj (sep : ascii) (u1 u2 r1 r2 : string) :
  occurs sep u1 = false -> occurs sep u2 = false ->
  u1 +:+ String sep r1 = u2 +:+ String sep r2 ->
  u1 = u2 /\ r1 = r2.
Proof.
  revert u2. induction u1 as [| c u1 IH]; intros [| d u2]; simpl.
  - intros _ _ [= ->]. by split.
  - intros _ [Hd _]%orb_false_elim [= <- _].
    by apply bool_decide_eq_false in Hd.
  - intros [Hc _]%orb_false_elim _ [= -> _].
    by apply bool_decide_eq_false in Hc.
  - intros [_ H1]%orb_false_elim [_ H2]%orb_false_elim [= -> Heq].
    destruct (IH _ H1 H2 Heq) as [-> ->]. by split.
Qed.

(** A name made of a time stamp, a dot and an extension free of dots
    determines both. *)
Lemma stamped_name_inj (t1 t2 : Z) (e1 e2 : string) :
  occurs "." e1 = false -> occurs "." e2 = false ->
  pretty t1 +:+ String "." e1 = pretty t2 +:+ String "." e2 ->
  t1 = t2 /\ e1 = e2.
Proof.
  intros H1 H2 Heq.
  assert (e1 = e2) as <-.
  { apply (f_equal (fun s => last (split "." s))) in Heq.
    rewrite !split_app, (split_clean _ _ H1), (split_clean _ _ H2) in Heq.
    rewrite !last_snoc in Heq. congruence. }
  split; [| reflexivity].
  apply app_inj_tail in Heq. by apply (inj pretty) in Heq.
Qed.

Lemma fileExtension_clean (fileName : string) :
  occurs "." (interpolate (fileExtension fileName)) = false.
Proof.
  destruct (fileExtension_spec fileName) as (ext & -> & Hext & _).
  exact Hext.
Qed.

Lemma fileExtension_interpolate (n1 n2 : string) :
  interpolate (fileExtension n1) = interpolate (fileExtension n2) ->
  fileExtension n1 = fileExtension n2.
Proof.
  destruct (fileExtension_spec n1) as (e1 & -> & _).
  destruct (fileExtension_spec n2) as (e2 & -> & _).
  simpl. congruence.
Qed.

(** X11: two logo uploads get the same object name exactly when they are made
    for the same user, at the same reading of the clock, with files of the
    same extension; the rest of the file name plays no part.  (User ids
    are taken to be free of slashes.) *)
Theorem logoPath_collision (u1 u2 : string) (t1 t2 : Z) (n1 n2 : string) :
  occurs "/" u1 = false -> occurs "/" u2 = false ->
  logoPath u1 t1 n1 = logoPath u2 t2 n2
  <-> u1 = u2 /\ t1 = t2 /\ fileExtension n1 = fileExtension n2.
Proof.
  intros H1 H2. split.
  - unfold logoPath. intros Heq.
    apply (inj (String.app "users/")) in Heq.
    apply (clean_prefix_inj "/" _ _ _ _ H1 H2) in Heq as [<- Heq].
    apply (inj (String.app "logo/logo_")) in Heq.
    apply stamped_name_inj in Heq as [<- Heq]; try apply fileExtension_clean.
    by apply fileExtension_interpolate in Heq.
  - intros (-> & -> & Hext). unfold logoPath. by rewrite Hext.
Qed.

Lemma logoPath_collision_witness :
  logoPath "u1" 1700000000000 "photo.png"
  = logoPath "u1" 1700000000000 "other.photo.png".
Proof.
  apply (logoPath_collision "u1" "u1" 1700000000000 1700000000000
           "photo.png" "other.photo.png"); [reflexivity | reflexivity |].
  repeat split; reflexivity.
Defined.

(** X12: two signature uploads get the same object name exactly when they are
    made for the same user at the same reading of the clock. *)
Theorem signaturePath_collision (u1 u2 : string) (t1 t2 : Z) :
  occurs "/" u1 = false -> occurs "/" u2 = false ->
  signaturePath u1 t1 = signaturePath u2 t2 <-> u1 = u2 /\ t1 = t2.
Proof.
  intros H1 H2. split.
  - unfold signaturePath. intros Heq.
    apply (inj (String.app "users/")) in Heq.
    apply (clean_prefix_inj "/" _ _ _ _ H1 H2) in Heq as [<- Heq].
    apply (inj (String.app "signatures/signature_")) in Heq.
    apply app_inj_tail in Heq. by apply (inj pretty) in Heq.
  - by intros [-> ->].
Qed.

Lemma signaturePath_collision_witness :
  signaturePath "u1" 5 = signaturePath "u2" 5 <-> "u1"%string = "u2"%string /\ 5%Z = 5%Z.
Proof.
  apply (signaturePath_collision "u1" "u2" 5 5); reflexivity.
Defined.

(** ** The upload functions *)

Section WithTimestamps.

Context `{TimestampApi}.

(** The body shared by [uploadUserLogo] and [uploadSignature], run step by
    step: the clock is read, the blob is uploaded under the name built from
    the reading, and the download URL of that name is asked for. *)
Lemma stamp_upload_url (label fallback : string) (mk : Z -> string)
    (blob : string) (env : Env) (st : State) :
  let p := mk (ticks env (reads st)) in
  let up := UploadBytes p blob in
  guarded label fallback
    (t <- dateNow ;;
     request acknowledged (UploadBytes (mk t) blob) ;;;
     downloadURL <- request downloadURL (GetDownloadURL (mk t)) ;;
     pure downloadURL)%sdk env st
  = match acknowledged env (up :: calls st) with
    | Rejected e =>
        (Rejected (or_else e fallback),
         {| calls := up :: calls st; reads := S (reads st);
            errors := (label, e) :: errors st; progress := progress st |})
    | Resolved _ =>
        match downloadURL env (GetDownloadURL p :: up :: calls st) with
        | Rejected e =>
            (Rejected (or_else e fallback),
             {| calls := GetDownloadURL p :: up :: calls st;
                reads := S (reads st);
                errors := (label, e) :: errors st; progress := progress st |})
        | Resolved url =>
            (Resolved url,
             {| calls := GetDownloadURL p :: up :: calls st;
                reads := S (reads st);
                errors := errors st; progress := progress st |})
        end
    end.
Proof.
  simpl. unfold guarded, catch, andThen, dateNow, request, pure,
    consoleError, raise. simpl.
  destruct (acknowledged env _) as [[] | e]; [| reflexivity].
  destruct (downloadURL env _) as [url | e]; reflexivity.
Qed.

(** X13: [uploadUserLogo] reads the clock once and uploads the file under the
    logo name built from that reading.  It asks for a download URL only
    after the upload was acknowledged, and only for that name; it resolves
    with nothing but the URL the SDK returned for that name, writing
    nothing to the console.  When either request fails it writes one line
    and rejects with a message that is never empty. *)
Theorem uploadUserLogo_run (userId : string) (file : File) (env : Env) (st : State) :
  let run := uploadUserLogo userId file env st in
  let p := logoPath userId (ticks env (reads st)) (name file) in
  let up := UploadBytes p (content file) in
  reads run.2 = S (reads st)
  /\ progress run.2 = progress st
  /\ match run.1 with
     | Resolved url =>
         calls run.2 = GetDownloadURL p :: up :: calls st
         /\ acknowledged env (up :: calls st) = Resolved tt
         /\ downloadURL env (calls run.2) = Resolved url
         /\ errors run.2 = errors st
     | Rejected m =>
         m <> ""%string
         /\ exists e,
              errors run.2 = ("Error uploading logo:"%string, e) :: errors st
              /\ m = or_else e "Failed to upload logo"
              /\ ((calls run.2 = up :: calls st
                   /\ acknowledged env (calls run.2) = Rejected e)
                  \/ (calls run.2 = GetDownloadURL p :: up :: calls st
                      /\ acknowledged env (up :: calls st) = Resolved tt
                      /\ downloadURL env (calls run.2) = Rejected e))
     end.
Proof.
  intros run p up. subst run. unfold uploadUserLogo.
  rewrite (stamp_upload_url _ _ (fun t => logoPath userId t (name file)) (content file)).
  fold p. fold up.
  destruct (acknowledged env (up :: calls st)) as [[] | e] eqn:Hup.
  - destruct (downloadURL env (GetDownloadURL p :: up :: calls st))
      as [url | e] eqn:Hurl; simpl.
    + by rewrite Hurl.
    + repeat split; [by apply or_else_nonempty |].
      exists e. repeat split. right. by rewrite Hurl.
  - simpl. repeat split; [by apply or_else_nonempty |].
    exists e. repeat split. left. by rewrite Hup.
Qed.

(** X14: [uploadSignature] reads the clock once and uploads the blob under
    the signature name built from that reading, which ends in [.png]
    whatever the blob is.  It asks for a download URL only after the
    upload was acknowledged, and only for that name; it resolves with
    nothing but the URL the SDK returned for that name.  When either
    request fails it writes one line to the console and rejects with a
    message that is never empty. *)
Theorem uploadSignature_run (userId signatureBlob : string) (env : Env) (st : State) :
  let run := uploadSignature userId signatureBlob env st in
  let p := signaturePath userId (ticks env (reads st)) in
  let up := UploadBytes p signatureBlob in
  reads run.2 = S (reads st)
  /\ progress run.2 = progress st
  /\ match run.1 with
     | Resolved url =>
         calls run.2 = GetDownloadURL p :: up :: calls st
         /\ acknowledged env (up :: calls st) = Resolved tt
         /\ downloadURL env (calls run.2) = Resolved url
         /\ errors run.2 = errors st
     | Rejected m =>
         m <> ""%string
         /\ exists e,
              errors run.2 = ("Error uploading signature:"%string, e) :: errors st
              /\ m = or_else e "Failed to upload signature"
              /\ ((calls run.2 = up :: calls st
                   /\ acknowledged env (calls run.2) = Rejected e)
                  \/ (calls run.2 = GetDownloadURL p :: up :: calls st
                      /\ acknowledged env (up :: calls st) = Resolved tt
                      /\ downloadURL env (calls run.2) = Rejected e))
     end.
Proof.
  intros run p up. subst run. unfold uploadSignature.
  rewrite (stamp_upload_url _ _ (fun t => signaturePath userId t) signatureBlob).
  fold p. fold up.
  destruct (acknowledged env (up :: calls st)) as [[] | e] eqn:Hup.
  - destruct (downloadURL env (GetDownloadURL p :: up :: calls st))
      as [url | e] eqn:Hurl; simpl.
    + by rewrite Hurl.
    + repeat split; [by apply or_else_nonempty |].
      exists e. repeat split. right. by rewrite Hurl.
  - simpl. repeat split; [by apply or_else_nonempty |].
    exists e. repeat split. left. by rewrite Hup.
Qed.

(** The progress observer never throws and does nothing but pass the
    progress of each snapshot, in order, to the callback when there is
    one. *)
Lemma observers_run (onProgress : bool) (snapshots : list UploadTaskSnapshot)
    (env : Env) (st : State) :
  exists units,
    mapRun (onStateChanged onProgress) snapshots env st =
    (Resolved units,
     {| calls := calls st; reads := reads st; errors := errors st;
        progress :=
          (if onProgress then reverse (percent <$> snapshots) else [])
          ++ progress st |}).
Proof.
  revert st. induction snapshots as [| x xs IH]; intros st.
  - exists []. simpl. unfold pure. destruct st, onProgress; reflexivity.
  - cbn [mapRun]. unfold andThen at 1. destruct onProgress.
    + change (onStateChanged true x env st)
        with (Resolved tt,
              {| calls := calls st; reads := reads st; errors := errors st;
                 progress := percent x :: progress st |}).
      cbn iota. unfold andThen at 1.
      destruct (IH {| calls := calls st; reads := reads st;
                      errors := errors st;
                      progress := percent x :: progress st |})
        as (units & ->).
      exists (tt :: units). unfold pure. simpl.
      rewrite reverse_cons, <- app_assoc. reflexivity.
    + change (onStateChanged false x env st) with (Resolved tt, st).
      cbn iota. unfold andThen at 1.
      destruct (IH st) as (units & ->).
      exists (tt :: units). reflexivity.
Qed.

Lemma uploadFileWithProgress_steps
    (userId : string) (file : File) (folder : string) (onProgress : bool)
    (env : Env) (st : State) :
  let p := folderPath userId folder (ticks env (reads st)) (name file) in
  let up := UploadBytesResumable p (content file) in
  let reported :=
    (if onProgress
     then reverse (percent <$> (uploadTask env (up :: calls st)).1)
     else [])
    ++ progress st in
  uploadFileWithProgress userId file folder onProgress env st =
  match (uploadTask env (up :: calls st)).2 with
  | Rejected e =>
      (Rejected (or_else e "Failed to upload file"),
       {| calls := up :: calls st; reads := S (reads st);
          errors := ("Upload error:"%string, e) :: errors st;
          progress := reported |})
  | Resolved _ =>
      (match downloadURL env (GetDownloadURL p :: up :: calls st) with
       | Resolved url => Resolved url
       | Rejected e => Rejected (or_else e "Failed to get download URL")
       end,
       {| calls := GetDownloadURL p :: up :: calls st; reads := S (reads st);
          errors := errors st; progress := reported |})
  end.
Proof.
  intros p up reported. subst reported. unfold uploadFileWithProgress.
  unfold andThen at 1. unfold dateNow at 1. cbn beta iota. fold p.
  unfold request at 1. cbn [calls reads errors progress]. fold up.
  destruct (uploadTask env (up :: calls st)) as [snapshots final].
  unfold andThen at 1.
  match goal with
  | |- context [mapRun _ snapshots env ?s] =>
      destruct (observers_run onProgress snapshots env s) as (units & ->)
  end.
  simpl. destruct final as [[] | e].
  - unfold catch, request, raise. simpl.
    by destruct (downloadURL env (GetDownloadURL p :: up :: calls st)).
  - reflexivity.
Qed.

(** X15: [uploadFileWithProgress] reads the clock once and starts one upload
    under the folder name built from that reading.  With a callback, the
    callback gets the progress of every snapshot of the task, in order;
    without one, nothing is reported.  If the task fails, one line is
    written to the console and no download URL is asked for; if it
    completes, the URL of the same name is asked for once, and a failure
    of that request is not written to the console. *)
Theorem uploadFileWithProgress_run
    (userId : string) (file : File) (folder : string) (onProgress : bool)
    (env : Env) (st : State) :
  let run := uploadFileWithProgress userId file folder onProgress env st in
  let p := folderPath userId folder (ticks env (reads st)) (name file) in
  let up := UploadBytesResumable p (content file) in
  reads run.2 = S (reads st)
  /\ progress run.2 =
     (if onProgress
      then reverse (percent <$> (uploadTask env (up :: calls st)).1)
      else [])
     ++ progress st
  /\ match (uploadTask env (up :: calls st)).2 with
     | Rejected e =>
         run.1 = Rejected (or_else e "Failed to upload file")
         /\ calls run.2 = up :: calls st
         /\ errors run.2 = ("Upload error:"%string, e) :: errors st
     | Resolved _ =>
         calls run.2 = GetDownloadURL p :: up :: calls st
         /\ errors run.2 = errors st
         /\ run.1 =
            match downloadURL env (calls run.2) with
            | Resolved url => Resolved url
            | Rejected e => Rejected (or_else e "Failed to get download URL")
            end
     end.
Proof.
  intros run p up. subst run. rewrite uploadFileWithProgress_steps.
  fold p. fold up.
  destruct (uploadTask env (up :: calls st)) as [snapshots [[] | e]]; simpl;
    repeat split; reflexivity.
Qed.

End WithTimestamps.

Example logo_of_u1 :
  uploadUserLogo (H := Samples.millis) "u1"
    {| name := "my.photo.png"; content := "PNG" |}
    Samples.sampleEnv Samples.fresh
  = (Resolved "https://cdn/users/u1/logo/logo_1000.png",
     {| calls := [GetDownloadURL "users/u1/logo/logo_1000.png";
                  UploadBytes "users/u1/logo/logo_1000.png" "PNG"];
        reads := 1; errors := []; progress := [] |}).
Proof. vm_compute. reflexivity. Qed.

Example logo_without_extension :
  logoPath "u1" 1700000000000 "README" = "users/u1/logo/logo_1700000000000.README"%string
  /\ logoPath "u1" 1700000000000 "archive.tar.gz"
     = "users/u1/logo/logo_1700000000000.gz"%string
  /\ logoPath "u1" 1700000000000 "trailing."
     = "users/u1/logo/logo_1700000000000."%string.
Proof. vm_compute. repeat split. Qed.

End StorageFacts.

(** * Documents *)

Module FirestoreFacts.

Import Sdk Firestore SdkFacts.

Section WithTimestamps.

Context `{TimestampApi}.

(** ** From a stored document to a record *)

(** One date field: a time stamp is converted and nothing else happens; a
    missing date costs one reading of the clock; anything else throws. *)
Lemma dateOr_run (data : object) (field : string) (env : Env) (st : State) :
  dateOr data field env st =
  match get data field with
  | VUndefined | VNull =>
      (Resolved (VDate (Some (ticks env (reads st)))),
       {| calls := calls st; reads := S (reads st);
          errors := errors st; progress := progress st |})
  | VTimestamp ts => (Resolved (VDate (toDate ts)), st)
  | _ => (Rejected (notAFunction env field), st)
  end.
Proof. unfold dateOr. by destruct (get data field). Qed.

Lemma dateOr_resolved (data : object) (field : string) (env : Env)
    (st st' : State) (v : value Timestamp) :
  dateOr data field env st = (Resolved v, st') ->
  convertible (get data field) = true
  /\ calls st' = calls st /\ errors st' = errors st
  /\ reads st <= reads st' <= S (reads st)
  /\ exists d, v = VDate d
     /\ match get data field with
        | VTimestamp ts => d = toDate ts
        | _ => d = Some (ticks env (reads st)) /\ reads st' = S (reads st)
        end.
Proof.
  rewrite dateOr_run.
  destruct (get data field); intros [= <- <-]; simpl;
    repeat split; eauto with lia.
Qed.

Lemma dateOr_rejected (data : object) (field : string) (env : Env)
    (st st' : State) (m : string) :
  dateOr data field env st = (Rejected m, st') ->
  convertible (get data field) = false
  /\ m = notAFunction env field /\ st' = st.
Proof.
  rewrite dateOr_run.
  destruct (get data field); intros [= <- <-]; by repeat split.
Qed.

Lemma key_of_id (doc : string * object) (key : string) :
  key <> "id"%string ->
  (doc.2 ∪ {["id" := VString doc.1]}) !! key = doc.2 !! key.
Proof.
  intros Hk. rewrite lookup_union, lookup_singleton_ne by done.
  by destruct (doc.2 !! key).
Qed.

Lemma id_of_doc (doc : string * object) :
  (doc.2 ∪ {["id" := VString doc.1]}) !! "id"
  = Some (match doc.2 !! "id" with Some v => v | None => VString doc.1 end).
Proof.
  rewrite lookup_union, lookup_singleton_eq. by destruct (doc.2 !! "id").
Qed.

Lemma toInvoice_spec (doc : string * object) (env : Env)
    (st st' : State) (invoice : object) :
  toInvoice doc env st = (Resolved invoice, st') ->
  (forall field, field ∈ invoiceDates ->
     exists d,
       invoice !! field = Some (VDate d)
       /\ match get doc.2 field with
          | VTimestamp ts => d = toDate ts
          | _ => exists n, reads st <= n < reads st' /\ d = Some (ticks env n)
          end)
  /\ (forall key, key ∉ invoiceDates -> key <> "id"%string ->
        invoice !! key = doc.2 !! key)
  /\ invoice !! "id"
     = Some (match doc.2 !! "id" with Some v => v | None => VString doc.1 end)
  /\ calls st' = calls st /\ errors st' = errors st.
Proof.
  unfold toInvoice, andThen, pure.
  destruct (dateOr doc.2 "createdAt" env st) as [[v1 | ?] st1] eqn:H1;
    [| discriminate].
  destruct (dateOr doc.2 "updatedAt" env st1) as [[v2 | ?] st2] eqn:H2;
    [| discriminate].
  destruct (dateOr doc.2 "dueDate" env st2) as [[v3 | ?] st3] eqn:H3;
    [| discriminate].
  destruct (dateOr doc.2 "issueDate" env st3) as [[v4 | ?] st4] eqn:H4;
    [| discriminate].
  intros [= <- <-].
  apply dateOr_resolved in H1 as (_ & C1 & E1 & R1 & d1 & -> & D1).
  apply dateOr_resolved in H2 as (_ & C2 & E2 & R2 & d2 & -> & D2).
  apply dateOr_resolved in H3 as (_ & C3 & E3 & R3 & d3 & -> & D3).
  apply dateOr_resolved in H4 as (_ & C4 & E4 & R4 & d4 & -> & D4).
  split; [| split; [| split; [| split; congruence]]].
  - intros field Hin. unfold invoiceDates in Hin.
    rewrite !elem_of_cons, elem_of_nil in Hin.
    destruct Hin as [-> | [-> | [-> | [-> | []]]]].
    + exists d1. split; [by simplify_map_eq |].
      destruct (get doc.2 "createdAt"); try exact D1;
        destruct D1 as [-> ?]; (eexists; split; [| reflexivity]; lia).
    + exists d2. split; [by simplify_map_eq |].
      destruct (get doc.2 "updatedAt"); try exact D2;
        destruct D2 as [-> ?]; (eexists; split; [| reflexivity]; lia).
    + exists d3. split; [by simplify_map_eq |].
      destruct (get doc.2 "dueDate"); try exact D3;
        destruct D3 as [-> ?]; (eexists; split; [| reflexivity]; lia).
    + exists d4. split; [by simplify_map_eq |].
      destruct (get doc.2 "issueDate"); try exact D4;
        destruct D4 as [-> ?]; (eexists; split; [| reflexivity]; lia).
  - intros key Hout Hid. unfold invoiceDates in Hout.
    rewrite !not_elem_of_cons in Hout. destruct Hout as (? & ? & ? & ? & _).
    rewrite !lookup_insert_ne by done. by apply key_of_id.
  - rewrite !lookup_insert_ne by done. apply id_of_doc.
Qed.

(** X16: the record built from a stored invoice.  Its four dates are dates: the
    date of the stored time stamp, or a reading of the clock taken during
    the call when the document has none.  Every other field of the
    document is carried over as it is.  The [id] of the record is the id
    of the document, unless the document has a field [id] of its own,
    which then takes its place.  Nothing is requested and nothing is
    written to the console. *)
Theorem toInvoice_resolved (doc : string * object) (env : Env)
    (st st' : State) (invoice : object) :
  toInvoice doc env st = (Resolved invoice, st') ->
  (forall field, field ∈ invoiceDates ->
     exists d,
       invoice !! field = Some (VDate d)
       /\ match get doc.2 field with
          | VTimestamp ts => d = toDate ts
          | _ => exists n, reads st <= n < reads st' /\ d = Some (ticks env n)
          end)
  /\ (forall key, key ∉ invoiceDates -> key <> "id"%string ->
        invoice !! key = doc.2 !! key)
  /\ invoice !! "id"
     = Some (match doc.2 !! "id" with Some v => v | None => VString doc.1 end)
  /\ calls st' = calls st /\ errors st' = errors st.
Proof. apply toInvoice_spec. Qed.

(** Whether all the date fields of a stored invoice can be converted. *)
Lemma dateOr_total (data : object) (field : string) (env : Env) (st : State) :
  convertible (get data field) = true ->
  exists v st', dateOr data field env st = (Resolved v, st').
Proof.
  rewrite dateOr_run. destruct (get data field); try discriminate; eauto.
Qed.

Lemma toInvoice_total (doc : string * object) (env : Env) (st : State) :
  forallb (fun field => convertible (get doc.2 field)) invoiceDates = true ->
  exists invoice st', toInvoice doc env st = (Resolved invoice, st').
Proof.
  simpl. rewrite !andb_true_iff. intros (C1 & C2 & C3 & C4 & _).
  unfold toInvoice, andThen, pure.
  destruct (dateOr_total _ _ env st C1) as (v1 & st1 & ->).
  destruct (dateOr_total _ _ env st1 C2) as (v2 & st2 & ->).
  destruct (dateOr_total _ _ env st2 C3) as (v3 & st3 & ->).
  destruct (dateOr_total _ _ env st3 C4) as (v4 & st4 & ->).
  eauto.
Qed.

Lemma toInvoice_resolved_convertible (doc : string * object) (env : Env)
    (st st' : State) (invoice : object) :
  toInvoice doc env st = (Resolved invoice, st') ->
  Forall (fun field => convertible (get doc.2 field) = true) invoiceDates.
Proof.
  unfold toInvoice, andThen, pure.
  destruct (dateOr doc.2 "createdAt" env st) as [[v1 | ?] st1] eqn:H1;
    [| discriminate].
  destruct (dateOr doc.2 "updatedAt" env st1) as [[v2 | ?] st2] eqn:H2;
    [| discriminate].
  destruct (dateOr doc.2 "dueDate" env st2) as [[v3 | ?] st3] eqn:H3;
    [| discriminate].
  destruct (dateOr doc.2 "issueDate" env st3) as [[v4 | ?] st4] eqn:H4;
    [| discriminate].
  intros _.
  apply dateOr_resolved in H1 as (C1 & _).
  apply dateOr_resolved in H2 as (C2 & _).
  apply dateOr_resolved in H3 as (C3 & _).
  apply dateOr_resolved in H4 as (C4 & _).
  by repeat constructor.
Qed.

Lemma toInvoice_rejected (doc : string * object) (env : Env)
    (st st' : State) (m : string) :
  toInvoice doc env st = (Rejected m, st') ->
  calls st' = calls st /\ errors st' = errors st
  /\ exists field,
       field ∈ invoiceDates
       /\ convertible (get doc.2 field) = false
       /\ m = notAFunction env field.
Proof.
  unfold toInvoice, andThen, pure.
  destruct (dateOr doc.2 "createdAt" env st) as [[v1 | ?] st1] eqn:H1.
  2: { intros [= <- <-]. apply dateOr_rejected in H1 as (? & ? & ->).
       repeat split. exists "createdAt"%string.
       split; [set_solver | by split]. }
  destruct (dateOr doc.2 "updatedAt" env st1) as [[v2 | ?] st2] eqn:H2.
  2: { intros [= <- <-]. apply dateOr_rejected in H2 as (? & ? & ->).
       apply dateOr_resolved in H1 as (_ & C1 & E1 & _).
       repeat split; [done | done |]. exists "updatedAt"%string.
       split; [set_solver | by split]. }
  destruct (dateOr doc.2 "dueDate" env st2) as [[v3 | ?] st3] eqn:H3.
  2: { intros [= <- <-]. apply dateOr_rejected in H3 as (? & ? & ->).
       apply dateOr_resolved in H1 as (_ & C1 & E1 & _).
       apply dateOr_resolved in H2 as (_ & C2 & E2 & _).
       repeat split; [congruence | congruence |]. exists "dueDate"%string.
       split; [set_solver | by split]. }
  destruct (dateOr doc.2 "issueDate" env st3) as [[v4 | ?] st4] eqn:H4.
  2: { intros [= <- <-]. apply dateOr_rejected in H4 as (? & ? & ->).
       apply dateOr_resolved in H1 as (_ & C1 & E1 & _).
       apply dateOr_resolved in H2 as (_ & C2 & E2 & _).
       apply dateOr_resolved in H3 as (_ & C3 & E3 & _).
       repeat split; [congruence | congruence |]. exists "issueDate"%string.
       split; [set_solver | by split]. }
  discriminate.
Qed.

(** X17: the conversion of a stored invoice fails exactly when one of its four
    date fields holds something that is neither a time stamp nor [null]
    nor absent; the error is then the [TypeError] of the engine for that
    field. *)
Theorem toInvoice_throws_iff (doc : string * object) (env : Env) (st : State) :
  (exists m st', toInvoice doc env st = (Rejected m, st'))
  <-> Exists (fun field => convertible (get doc.2 field) = false) invoiceDates.
Proof.
  split.
  - intros (m & st' & Hrun).
    apply toInvoice_rejected in Hrun as (_ & _ & field & Hin & Hbad & _).
    apply Exists_exists. eauto.
  - intros Hbad.
    destruct (toInvoice doc env st) as [[invoice | m] st'] eqn:Hrun; [| eauto].
    exfalso. apply toInvoice_resolved_convertible in Hrun.
    apply Exists_exists in Hbad as (field & Hin & Hbad).
    rewrite Forall_forall in Hrun. specialize (Hrun field Hin). congruence.
Qed.

(** ** Listings *)

Lemma mapRun_resolved {A B} (f : A -> Run B) (xs : list A) (env : Env)
    (st st' : State) (ys : list B) :
  mapRun f xs env st = (Resolved ys, st') ->
  Forall2 (fun x y => exists s1 s2, f x env s1 = (Resolved y, s2)) xs ys.
Proof.
  revert st ys. induction xs as [| x xs IH]; intros st ys; simpl.
  - unfold pure. intros [= <- <-]. constructor.
  - unfold andThen at 1. destruct (f x env st) as [[y | ?] s1] eqn:Hx;
      [| discriminate].
    unfold andThen at 1. destruct (mapRun f xs env s1) as [[ys' | ?] s2] eqn:Hxs;
      [| discriminate].
    unfold pure. intros [= <- <-]. constructor; eauto.
Qed.

Lemma mapRun_rejected {A B} (f : A -> Run B) (xs : list A) (env : Env)
    (st st' : State) (m : string) :
  mapRun f xs env st = (Rejected m, st') ->
  Exists (fun x => exists s1 s2, f x env s1 = (Rejected m, s2)) xs.
Proof.
  revert st. induction xs as [| x xs IH]; intros st; simpl.
  - unfold pure. discriminate.
  - unfold andThen at 1. destruct (f x env st) as [[y | e] s1] eqn:Hx.
    + unfold andThen at 1.
      destruct (mapRun f xs env s1) as [[ys' | e] s2] eqn:Hxs;
        [discriminate |].
      intros [= <- <-]. apply Exists_cons_tl. eauto.
    + intros [= <- <-]. apply Exists_cons_hd. eauto.
Qed.

Lemma mapRun_keeps {A B C} (f : A -> Run B) (view : State -> C)
    (xs : list A) (env : Env) (st st' : State) (r : outcome (list B)) :
  (forall x s o s', f x env s = (o, s') -> view s' = view s) ->
  mapRun f xs env st = (r, st') -> view st' = view st.
Proof.
  intros Hf. revert st r. induction xs as [| x xs IH]; intros st r; simpl.
  - unfold pure. by intros [= <- <-].
  - unfold andThen at 1. destruct (f x env st) as [[y | e] s1] eqn:Hx.
    + unfold andThen at 1.
      destruct (mapRun f xs env s1) as [[ys' | e] s2] eqn:Hxs.
      * unfold pure. intros [= <- <-].
        rewrite (IH _ _ Hxs). eauto.
      * intros [= <- <-]. rewrite (IH _ _ Hxs). eauto.
    + intros [= <- <-]. eauto.
Qed.

Lemma toInvoice_quiet (doc : string * object) (env : Env) (st st' : State)
    (o : outcome object) :
  toInvoice doc env st = (o, st') ->
  calls st' = calls st /\ errors st' = errors st.
Proof.
  destruct o as [invoice | m]; intros Hrun.
  - by apply toInvoice_spec in Hrun as (_ & _ & _ & ? & ?).
  - by apply toInvoice_rejected in Hrun as (? & ? & _).
Qed.

(** X18: [getUserInvoices] makes one request, the query for the invoices of
    the user, newest first.  Its answer is converted document by
    document, all or nothing: when every document has convertible dates,
    the listing has one record per document, in the order of the answer,
    each with the fields of its document; when one document has not, the
    whole listing is rejected and one line is written to the console. *)
Theorem getUserInvoices_all_or_nothing (userId : string) (env : Env)
    (st : State) (docs : list (string * object)) :
  let query :=
    GetDocs "invoices"
      [where_ "userId" "==" (VString userId); orderBy "createdAt" "desc"] in
  let run := getUserInvoices userId env st in
  querySnapshot env (query :: calls st) = Resolved docs ->
  calls run.2 = query :: calls st
  /\ ((Forall (fun doc =>
                Forall (fun field => convertible (get doc.2 field) = true)
                  invoiceDates) docs
       /\ errors run.2 = errors st
       /\ exists invoices,
            run.1 = Resolved invoices
            /\ Forall2
                 (fun doc invoice =>
                    invoice !! "id"
                    = Some (match doc.2 !! "id" with
                            | Some v => v
                            | None => VString doc.1
                            end)
                    /\ (forall key, key ∉ invoiceDates -> key <> "id"%string ->
                          invoice !! key = doc.2 !! key)
                    /\ (forall field, field ∈ invoiceDates ->
                          exists d, invoice !! field = Some (VDate d)))
                 docs invoices)
      \/ (Exists (fun doc =>
                    Exists (fun field => convertible (get doc.2 field) = false)
                      invoiceDates) docs
          /\ exists m e,
               run.1 = Rejected m /\ m <> ""%string
               /\ errors run.2
                  = ("Error fetching invoices:"%string, e) :: errors st)).
Proof.
  intros query run Hq. subst run.
  unfold getUserInvoices. rewrite guarded_request_then. fold query. rewrite Hq.
  set (st1 := {| calls := query :: calls st; reads := reads st;
                 errors := errors st; progress := progress st |}).
  destruct (mapRun toInvoice docs env st1) as [[invoices | m] st2] eqn:Hmap.
  - pose proof (mapRun_keeps toInvoice calls docs env st1 st2 _
                  (fun x s o s' Hx => proj1 (toInvoice_quiet x env s s' o Hx))
                  Hmap) as Hc.
    pose proof (mapRun_keeps toInvoice errors docs env st1 st2 _
                  (fun x s o s' Hx => proj2 (toInvoice_quiet x env s s' o Hx))
                  Hmap) as He.
    apply mapRun_resolved in Hmap. simpl.
    split; [exact Hc |]. left. split; [| split; [exact He |]].
    + clear -Hmap. induction Hmap as [| doc inv ds invs (s1 & s2 & Hx) _ IH];
        constructor; [| exact IH].
      by apply toInvoice_resolved_convertible in Hx.
    + exists invoices. split; [reflexivity |].
      eapply Forall2_impl; [exact Hmap |].
      intros doc inv (s1 & s2 & Hx).
      apply toInvoice_spec in Hx as (Hd & Hk & Hid & _).
      split; [exact Hid |]. split; [exact Hk |].
      intros field Hin. destruct (Hd field Hin) as (d & ? & _). eauto.
  - pose proof (mapRun_keeps toInvoice calls docs env st1 st2 _
                  (fun x s o s' Hx => proj1 (toInvoice_quiet x env s s' o Hx))
                  Hmap) as Hc.
    pose proof (mapRun_keeps toInvoice errors docs env st1 st2 _
                  (fun x s o s' Hx => proj2 (toInvoice_quiet x env s s' o Hx))
                  Hmap) as He.
    apply mapRun_rejected in Hmap. simpl.
    split; [exact Hc |]. right. split.
    + eapply Exists_impl; [exact Hmap |].
      intros doc (s1 & s2 & Hx).
      apply toInvoice_rejected in Hx as (_ & _ & field & Hin & Hbad & _).
      apply Exists_exists. eauto.
    + exists (or_else m "Failed to fetch invoices"), m.
      split; [reflexivity |]. split; [by apply or_else_nonempty |].
      by rewrite He.
Qed.

(** ** One invoice *)

Lemma forallb_convertible (data : object) (fields : list string) :
  Forall (fun field => convertible (get data field) = true) fields ->
  forallb (fun field => convertible (get data field)) fields = true.
Proof.
  induction 1 as [| field fields Hf _ IH]; [reflexivity |].
  simpl. by rewrite Hf, IH.
Qed.

(** X19: [getInvoice] makes one request, for the document of the invoice.  A
    document that does not exist is not an error: the call resolves with
    [null], reads no clock and writes nothing to the console.  A document
    that exists is converted like the documents of a listing, under the id
    of the snapshot; if its dates cannot be converted, or if the request
    fails, the call is rejected and one line is written to the console. *)
Theorem getInvoice_run (invoiceId : string) (env : Env) (st : State) :
  let query := GetDoc "invoices" invoiceId in
  let run := getInvoice invoiceId env st in
  calls run.2 = query :: calls st
  /\ match documentSnapshot env (query :: calls st) with
     | Rejected e =>
         run.1 = Rejected (or_else e "Failed to fetch invoice")
         /\ errors run.2 = ("Error fetching invoice:"%string, e) :: errors st
     | Resolved (id, None) =>
         run.1 = Resolved None
         /\ errors run.2 = errors st /\ reads run.2 = reads st
     | Resolved (id, Some data) =>
         if forallb (fun field => convertible (get data field)) invoiceDates
         then
           errors run.2 = errors st
           /\ exists invoice,
                run.1 = Resolved (Some invoice)
                /\ invoice !! "id"
                   = Some (match data !! "id" with
                           | Some v => v
                           | None => VString id
                           end)
                /\ (forall key, key ∉ invoiceDates -> key <> "id"%string ->
                      invoice !! key = data !! key)
                /\ (forall field, field ∈ invoiceDates ->
                      exists d, invoice !! field = Some (VDate d))
         else
           exists m e,
             run.1 = Rejected m /\ m <> ""%string
             /\ errors run.2
                = ("Error fetching invoice:"%string, e) :: errors st
     end.
Proof.
  intros query run. subst run.
  unfold getInvoice. rewrite guarded_request_then. fold query.
  destruct (documentSnapshot env (query :: calls st)) as [[id [data |]] | e];
    [| simpl; by repeat split | simpl; by repeat split].
  cbn [fst snd].
  set (st1 := {| calls := query :: calls st; reads := reads st;
                 errors := errors st; progress := progress st |}).
  unfold andThen.
  destruct (toInvoice (id, data) env st1) as [[invoice | m] st2] eqn:Hrun.
  - pose proof (toInvoice_resolved_convertible _ _ _ _ _ Hrun) as Hok.
    apply toInvoice_spec in Hrun as (Hd & Hk & Hid & Hc & He).
    apply forallb_convertible in Hok. cbn [fst snd] in Hok.
    unfold pure. cbn [fst snd]. rewrite Hok. simpl in *.
    split; [exact Hc |]. split; [exact He |].
    exists invoice. split; [reflexivity |]. split; [exact Hid |].
    split; [exact Hk |].
    intros field Hin. destruct (Hd field Hin) as (d & ? & _). eauto.
  - destruct (forallb (fun field => convertible (get data field)) invoiceDates)
      eqn:Hok.
    { destruct (toInvoice_total (id, data) env st1 Hok) as (? & ? & Hres).
      congruence. }
    apply toInvoice_rejected in Hrun as (Hc & He & _). simpl.
    split; [exact Hc |].
    exists (or_else m "Failed to fetch invoice"), m.
    split; [reflexivity |]. split; [by apply or_else_nonempty |].
    by rewrite He.
Qed.

(** ** Writes *)

(** [createInvoice], run step by step. *)
Lemma createInvoice_steps (invoice : object) (env : Env) (st : State) :
  createInvoice invoice env st =
  match fromDate (get invoice "dueDate") with
  | Rejected e =>
      (Rejected (or_else e "Failed to create invoice"),
       {| calls := calls st; reads := reads st;
          errors := ("Error creating invoice:"%string, e) :: errors st;
          progress := progress st |})
  | Resolved due =>
      match fromDate (get invoice "issueDate") with
      | Rejected e =>
          (Rejected (or_else e "Failed to create invoice"),
           {| calls := calls st; reads := reads st;
              errors := ("Error creating invoice:"%string, e) :: errors st;
              progress := progress st |})
      | Resolved issue =>
          let payload : object :=
            <["updatedAt" := VTimestamp (nowAt (ticks env (S (reads st))))]>
              (<["createdAt" := VTimestamp (nowAt (ticks env (reads st)))]>
                 (<["issueDate" := VTimestamp issue]>
                    (<["dueDate" := VTimestamp due]> invoice))) in
          let add := AddDoc "invoices" payload in
          match documentId env (add :: calls st) with
          | Resolved id =>
              (Resolved id,
               {| calls := add :: calls st; reads := S (S (reads st));
                  errors := errors st; progress := progress st |})
          | Rejected e =>
              (Rejected (or_else e "Failed to create invoice"),
               {| calls := add :: calls st; reads := S (S (reads st));
                  errors := ("Error creating invoice:"%string, e) :: errors st;
                  progress := progress st |})
          end
      end
  end.
Proof.
  unfold createInvoice, guarded, catch, andThen, timestampFromDate,
    timestampNow, request, pure, consoleError, raise.
  destruct (fromDate (get invoice "dueDate")) as [due | e]; [| by destruct st].
  destruct (fromDate (get invoice "issueDate")) as [issue | e];
    [| by destruct st].
  simpl. by destruct (documentId env _).
Qed.

(** X20: [createInvoice] stores the invoice with its two dates as time stamps
    and with [createdAt] and [updatedAt] taken from two successive
    readings of the clock, whatever the argument holds under these two
    names; every other field is stored as given.  When the SDK refuses one
    of the two dates, nothing is sent to the store and the clock is not
    read. *)
Theorem createInvoice_run (invoice : object) (env : Env) (st : State) :
  let run := createInvoice invoice env st in
  match fromDate (get invoice "dueDate"), fromDate (get invoice "issueDate") with
  | Resolved due, Resolved issue =>
      exists payload : object,
        calls run.2 = AddDoc "invoices" payload :: calls st
        /\ payload !! "dueDate" = Some (VTimestamp due)
        /\ payload !! "issueDate" = Some (VTimestamp issue)
        /\ payload !! "createdAt"
           = Some (VTimestamp (nowAt (ticks env (reads st))))
        /\ payload !! "updatedAt"
           = Some (VTimestamp (nowAt (ticks env (S (reads st)))))
        /\ (forall key, key ∉ invoiceDates -> payload !! key = invoice !! key)
        /\ run.1 =
           match documentId env (calls run.2) with
           | Resolved id => Resolved id
           | Rejected e => Rejected (or_else e "Failed to create invoice")
           end
  | _, _ =>
      calls run.2 = calls st /\ reads run.2 = reads st
      /\ exists m e,
           run.1 = Rejected m /\ m <> ""%string
           /\ errors run.2
              = ("Error creating invoice:"%string, e) :: errors st
  end.
Proof.
  intros run. subst run. rewrite createInvoice_steps.
  destruct (fromDate (get invoice "dueDate")) as [due | e].
  - destruct (fromDate (get invoice "issueDate")) as [issue | e].
    + eexists. cbv zeta.
      destruct (documentId env _) as [id | e] eqn:Hid; simpl; rewrite Hid;
        (split; [reflexivity |]);
        (repeat (split; [by simplify_map_eq |]));
        (split; [| reflexivity]);
        intros key Hout; unfold invoiceDates in Hout;
        rewrite !not_elem_of_cons in Hout;
        destruct Hout as (? & ? & ? & ? & _);
        by rewrite !lookup_insert_ne.
    + simpl. repeat split. do 2 eexists. split; [reflexivity |].
      split; [by apply or_else_nonempty | reflexivity].
  - destruct (fromDate (get invoice "issueDate")); simpl; repeat split;
      do 2 eexists; (split; [reflexivity |]);
      (split; [by apply or_else_nonempty | reflexivity]).
Qed.

(** [updateInvoice], run step by step; [stamp] is what becomes of a date
    field of the updates. *)
Lemma updateInvoice_steps (invoiceId : string) (updates : object)
    (env : Env) (st : State) :
  let stamp field :=
    if truthy (get updates field)
    then match fromDate (get updates field) with
         | Resolved ts => Resolved (Some (VTimestamp ts))
         | Rejected e => Rejected e
         end
    else Resolved None in
  let put field (o : option (value Timestamp)) (data : object) :=
    match o with Some v => <[field := v]> data | None => data end in
  let refused e :=
    (Rejected (or_else e "Failed to update invoice"),
     {| calls := calls st; reads := S (reads st);
        errors := ("Error updating invoice:"%string, e) :: errors st;
        progress := progress st |}) in
  updateInvoice invoiceId updates env st =
  match stamp "dueDate"%string with
  | Rejected e => refused e
  | Resolved due =>
      match stamp "issueDate"%string with
      | Rejected e => refused e
      | Resolved issue =>
          let payload :=
            put "issueDate"%string issue
              (put "dueDate"%string due
                 (<["updatedAt" := VTimestamp (nowAt (ticks env (reads st)))]>
                    updates)) in
          let update := UpdateDoc "invoices" invoiceId payload in
          match acknowledged env (update :: calls st) with
          | Resolved u =>
              (Resolved u,
               {| calls := update :: calls st; reads := S (reads st);
                  errors := errors st; progress := progress st |})
          | Rejected e =>
              (Rejected (or_else e "Failed to update invoice"),
               {| calls := update :: calls st; reads := S (reads st);
                  errors := ("Error updating invoice:"%string, e) :: errors st;
                  progress := progress st |})
          end
      end
  end.
Proof.
  cbv zeta.
  unfold updateInvoice, guarded, catch, andThen, convertDate,
    timestampFromDate, timestampNow, request, pure, consoleError, raise.
  simpl.
  destruct (truthy (get updates "dueDate"));
    [destruct (fromDate (get updates "dueDate")); [| reflexivity] |];
    (destruct (truthy (get updates "issueDate"));
     [destruct (fromDate (get updates "issueDate")); [| reflexivity] |]);
    simpl; by destruct (acknowledged env _).
Qed.

(** X21: [updateInvoice] reads the clock once.  It sends the updates with
    [updatedAt] set to the time stamp of that reading, whatever the
    updates hold under that name.  A due date or issue date of the updates
    that counts as true is sent as its time stamp; one that is absent or
    [null] is sent as it is; every other field is sent as given.  When the
    SDK refuses one of these dates, nothing is sent. *)
Theorem updateInvoice_run (invoiceId : string) (updates : object)
    (env : Env) (st : State) :
  let run := updateInvoice invoiceId updates env st in
  let refused field :=
    truthy (get updates field) = true
    /\ exists e, fromDate (get updates field) = Rejected e in
  reads run.2 = S (reads st)
  /\ (((refused "dueDate"%string \/ refused "issueDate"%string)
       /\ calls run.2 = calls st
       /\ exists m e,
            run.1 = Rejected m /\ m <> ""%string
            /\ errors run.2
               = ("Error updating invoice:"%string, e) :: errors st)
      \/ exists payload : object,
           calls run.2 = UpdateDoc "invoices" invoiceId payload :: calls st
           /\ payload !! "updatedAt"
              = Some (VTimestamp (nowAt (ticks env (reads st))))
           /\ (forall field, field ∈ ["dueDate"; "issueDate"]%string ->
                 if truthy (get updates field)
                 then exists ts,
                        fromDate (get updates field) = Resolved ts
                        /\ payload !! field = Some (VTimestamp ts)
                 else payload !! field = updates !! field)
           /\ (forall key,
                 key ∉ ["updatedAt"; "dueDate"; "issueDate"]%string ->
                 payload !! key = updates !! key)
           /\ run.1 =
              match acknowledged env (calls run.2) with
              | Resolved u => Resolved u
              | Rejected e => Rejected (or_else e "Failed to update invoice")
              end).
Proof.
  intros run refused. subst run refused.
  rewrite updateInvoice_steps. cbv zeta.
  assert (forall (payload : object) (r : outcome unit * State),
            payload !! "updatedAt"
            = Some (VTimestamp (nowAt (ticks env (reads st)))) ->
            (forall field, field ∈ ["dueDate"; "issueDate"]%string ->
               if truthy (get updates field)
               then exists ts,
                      fromDate (get updates field) = Resolved ts
                      /\ payload !! field = Some (VTimestamp ts)
               else payload !! field = updates !! field) ->
            (forall key,
               key ∉ ["updatedAt"; "dueDate"; "issueDate"]%string ->
               payload !! key = updates !! key) ->
            r = match acknowledged env
                        (UpdateDoc "invoices" invoiceId payload :: calls st)
                with
                | Resolved u =>
                    (Resolved u,
                     {| calls := UpdateDoc "invoices" invoiceId payload
                                 :: calls st;
                        reads := S (reads st);
                        errors := errors st; progress := progress st |})
                | Rejected e =>
                    (Rejected (or_else e "Failed to update invoice"),
                     {| calls := UpdateDoc "invoices" invoiceId payload
                                 :: calls st;
                        reads := S (reads st);
                        errors := ("Error updating invoice:"%string, e)
                                  :: errors st;
                        progress := progress st |})
                end ->
            reads r.2 = S (reads st)
            /\ exists payload : object,
                 calls r.2 = UpdateDoc "invoices" invoiceId payload :: calls st
                 /\ payload !! "updatedAt"
                    = Some (VTimestamp (nowAt (ticks env (reads st))))
                 /\ (forall field, field ∈ ["dueDate"; "issueDate"]%string ->
                       if truthy (get updates field)
                       then exists ts,
                              fromDate (get updates field) = Resolved ts
                              /\ payload !! field = Some (VTimestamp ts)
                       else payload !! field = updates !! field)
                 /\ (forall key,
                       key ∉ ["updatedAt"; "dueDate"; "issueDate"]%string ->
                       payload !! key = updates !! key)
                 /\ r.1 =
                    match acknowledged env (calls r.2) with
                    | Resolved u => Resolved u
                    | Rejected e =>
                        Rejected (or_else e "Failed to update invoice")
                    end) as Hsent.
  { intros payload r Hu Hd Hk ->.
    destruct (acknowledged env _) as [u | e] eqn:Hack; simpl;
      (split; [reflexivity |]); exists payload; rewrite Hack; by repeat split. }
  assert (forall e : string,
            let r : outcome unit * State :=
              (Rejected (or_else e "Failed to update invoice"),
               {| calls := calls st; reads := S (reads st);
                  errors := ("Error updating invoice:"%string, e) :: errors st;
                  progress := progress st |}) in
            reads r.2 = S (reads st)
            /\ calls r.2 = calls st
            /\ exists m e',
                 r.1 = Rejected m /\ m <> ""%string
                 /\ errors r.2
                    = ("Error updating invoice:"%string, e') :: errors st)
    as Hrefused.
  { intros e r. subst r. simpl. repeat split. do 2 eexists.
    split; [reflexivity |]. split; [by apply or_else_nonempty | reflexivity]. }
  destruct (truthy (get updates "dueDate")) eqn:T1;
    [destruct (fromDate (get updates "dueDate")) as [ts1 | e1] eqn:F1 |];
    (destruct (truthy (get updates "issueDate")) eqn:T2;
     [destruct (fromDate (get updates "issueDate")) as [ts2 | e2] eqn:F2 |]);
    first
      [ (* a date is refused *)
        match goal with
        | |- context [or_else ?e "Failed to update invoice"] =>
            destruct (Hrefused e) as (Hr & Hc & Hm)
        end;
        split; [exact Hr |]; left; split; [by eauto |]; by split
      | (* the update is sent *)
        match goal with
        | |- context [UpdateDoc "invoices" invoiceId ?p] =>
            edestruct (Hsent p) as (Hr & Hp); [| | | reflexivity |];
            [ by simplify_map_eq
            | intros field Hin; rewrite !elem_of_cons, elem_of_nil in Hin;
              destruct Hin as [-> | [-> | []]]; rewrite ?T1, ?T2;
              simplify_map_eq; eauto
            | intros key Hout; rewrite !not_elem_of_cons in Hout;
              destruct Hout as (? & ? & ? & _);
              by rewrite ?lookup_insert_ne
            | split; [exact Hr |]; right; exact Hp ]
        end ].
Qed.

(** X22: [updateAgreement] sends the new content and the time stamp of one
    reading of the clock, and nothing else, except that [isFinalized] is
    sent exactly when the argument was given, with its value, be it
    [false]. *)
Theorem updateAgreement_run (agreementId content : string)
    (isFinalized : option bool) (env : Env) (st : State) :
  let run := updateAgreement agreementId content isFinalized env st in
  reads run.2 = S (reads st)
  /\ exists payload : object,
       calls run.2 = UpdateDoc "agreements" agreementId payload :: calls st
       /\ payload !! "content" = Some (VString content)
       /\ payload !! "updatedAt"
          = Some (VTimestamp (nowAt (ticks env (reads st))))
       /\ payload !! "isFinalized" = VBool <$> isFinalized
       /\ (forall key,
             key ∉ ["content"; "updatedAt"; "isFinalized"]%string ->
             payload !! key = None)
       /\ match acknowledged env (calls run.2) with
          | Resolved u => run.1 = Resolved u /\ errors run.2 = errors st
          | Rejected e =>
              run.1 = Rejected (or_else e "Failed to update agreement")
              /\ errors run.2
                 = ("Error updating agreement:"%string, e) :: errors st
          end.
Proof.
  intros run. subst run.
  unfold updateAgreement, guarded, catch, andThen, timestampNow, request,
    pure, consoleError, raise.
  simpl.
  destruct (acknowledged env _) as [u | e] eqn:Hack; simpl;
    (split; [reflexivity |]); eexists; (split; [reflexivity |]);
    rewrite Hack;
    (split; [by destruct isFinalized; simplify_map_eq |]);
    (split; [by destruct isFinalized; simplify_map_eq |]);
    (split; [by destruct isFinalized; simplify_map_eq |]);
    (split; [| by split]);
    intros key Hout; rewrite !not_elem_of_cons in Hout;
    destruct Hout as (? & ? & ? & _);
    destruct isFinalized; by simplify_map_eq.
Qed.

(** ** Agreements *)

Lemma toRecord_total (doc : string * object) (env : Env) (st : State) :
  forallb (fun field => convertible (get doc.2 field)) recordDates = true ->
  exists record st',
    toRecord doc env st = (Resolved record, st')
    /\ calls st' = calls st /\ errors st' = errors st
    /\ record !! "id"
       = Some (match doc.2 !! "id" with Some v => v | None => VString doc.1 end)
    /\ (forall key, key ∉ recordDates -> key <> "id"%string ->
          record !! key = doc.2 !! key)
    /\ (forall field, field ∈ recordDates ->
          exists d, record !! field = Some (VDate d)).
Proof.
  simpl. rewrite !andb_true_iff. intros (C1 & C2 & _).
  unfold toRecord, andThen, pure.
  destruct (dateOr_total _ _ env st C1) as (v1 & st1 & H1). rewrite H1.
  destruct (dateOr_total _ _ env st1 C2) as (v2 & st2 & H2). rewrite H2.
  apply dateOr_resolved in H1 as (_ & Hc1 & He1 & _ & d1 & -> & _).
  apply dateOr_resolved in H2 as (_ & Hc2 & He2 & _ & d2 & -> & _).
  do 2 eexists. split; [reflexivity |].
  split; [congruence |]. split; [congruence |]. split; [| split].
  - rewrite !lookup_insert_ne by done. apply id_of_doc.
  - intros key Hout Hid. unfold recordDates in Hout.
    rewrite !not_elem_of_cons in Hout. destruct Hout as (? & ? & _).
    rewrite !lookup_insert_ne by done. by apply key_of_id.
  - intros field Hin. unfold recordDates in Hin.
    rewrite !elem_of_cons, elem_of_nil in Hin.
    destruct Hin as [-> | [-> | []]]; eexists; by simplify_map_eq.
Qed.

(** X23: [getAgreementByInvoiceId] makes one query.  An empty answer is not
    an error: the call resolves with [null].  Otherwise only the first
    document of the answer counts: if its two dates can be converted, the
    call resolves with its record, whatever the other documents of the
    answer hold. *)
Theorem getAgreementByInvoiceId_first (invoiceId : string) (env : Env)
    (st : State) (docs : list (string * object)) :
  let query :=
    GetDocs "agreements" [where_ "invoiceId" "==" (VString invoiceId)] in
  let run := getAgreementByInvoiceId invoiceId env st in
  querySnapshot env (query :: calls st) = Resolved docs ->
  match docs with
  | [] =>
      run = (Resolved None,
             {| calls := query :: calls st; reads := reads st;
                errors := errors st; progress := progress st |})
  | doc :: _ =>
      forallb (fun field => convertible (get doc.2 field)) recordDates = true ->
      calls run.2 = query :: calls st
      /\ errors run.2 = errors st
      /\ exists agreement,
           run.1 = Resolved (Some agreement)
           /\ agreement !! "id"
              = Some (match doc.2 !! "id" with
                      | Some v => v
                      | None => VString doc.1
                      end)
           /\ (forall key, key ∉ recordDates -> key <> "id"%string ->
                 agreement !! key = doc.2 !! key)
           /\ (forall field, field ∈ recordDates ->
                 exists d, agreement !! field = Some (VDate d))
  end.
Proof.
  intros query run Hq. subst run.
  unfold getAgreementByInvoiceId. rewrite guarded_request_then. fold query.
  rewrite Hq. destruct docs as [| doc rest]; [reflexivity |].
  intros Hok. unfold andThen.
  edestruct (toRecord_total doc env) as (record & st' & -> & Hc & He & Hrec);
    [exact Hok |].
  unfold pure. simpl. split; [exact Hc |]. split; [exact He |].
  exists record. by split.
Qed.

End WithTimestamps.

(** ** The sample store *)

Example listing_of_alice :
  (getUserInvoices (H := Samples.millis) "alice" Samples.sampleEnv
     Samples.fresh).1
  = Resolved
      [ <["id" := VString "inv1"]>
          (<["createdAt" := VDate (Some 100%Z)]>
             (<["updatedAt" := VDate (Some 200%Z)]>
                (<["dueDate" := VDate (Some 300%Z)]>
                   (<["issueDate" := VDate (Some 150%Z)]>
                      Samples.storedInvoice))));
        <["id" := VString "inv2"]>
          (<["createdAt" := VDate (Some 100%Z)]>
             (<["updatedAt" := VDate (Some 200%Z)]>
                (<["dueDate" := VDate (Some 1000%Z)]>
                   (<["issueDate" := VDate (Some 150%Z)]>
                      Samples.storedInvoice)))) ].
Proof. vm_compute. reflexivity. Qed.

Example listing_of_bob :
  getUserInvoices (H := Samples.millis) "bob" Samples.sampleEnv Samples.fresh
  = (Rejected "dueDate?.toDate is not a function",
     {| calls := [GetDocs "invoices"
                    [where_ "userId" "==" (VString "bob");
                     orderBy "createdAt" "desc"]];
        reads := 1;
        errors := [("Error fetching invoices:"%string,
                    "dueDate?.toDate is not a function"%string)];
        progress := [] |}).
Proof. vm_compute. reflexivity. Qed.

Lemma toInvoice_resolved_witness :
  match (toInvoice (H := Samples.millis) ("inv2"%string, Samples.undatedInvoice)
           Samples.sampleEnv Samples.fresh).1 with
  | Resolved invoice => invoice !! "id" = Some (VString "inv2")
  | Rejected _ => False
  end.
Proof.
  pose proof (toInvoice_resolved (H := Samples.millis)
                ("inv2"%string, Samples.undatedInvoice)
                Samples.sampleEnv Samples.fresh) as Hspec.
  destruct (toInvoice (H := Samples.millis)
              ("inv2"%string, Samples.undatedInvoice)
              Samples.sampleEnv Samples.fresh) as [[invoice | m] st'] eqn:Hrun.
  - destruct (Hspec st' invoice eq_refl) as (_ & _ & Hid & _). exact Hid.
  - vm_compute in Hrun. discriminate Hrun.
Defined.

Lemma getUserInvoices_all_or_nothing_witness :
  calls (getUserInvoices (H := Samples.millis) "alice" Samples.sampleEnv
           Samples.fresh).2
  = [GetDocs "invoices"
       [where_ "userId" "==" (VString "alice"); orderBy "createdAt" "desc"]].
Proof.
  apply (getUserInvoices_all_or_nothing (H := Samples.millis) "alice"
           Samples.sampleEnv Samples.fresh
           [("inv1"%string, Samples.storedInvoice);
            ("inv2"%string, Samples.undatedInvoice)]).
  reflexivity.
Defined.

Example first_agreement_only :
  (getAgreementByInvoiceId (H := Samples.millis) "inv1" Samples.agreementsEnv
     Samples.fresh).1
  = Resolved
      (Some (<["id" := VString "agr1"]>
               (<["createdAt" := VDate (Some 400%Z)]>
                  (<["updatedAt" := VDate (Some 500%Z)]>
                     Samples.storedAgreement))))
  /\ (toRecord (H := Samples.millis) ("agr2"%string, Samples.malformedAgreement)
        Samples.agreementsEnv Samples.fresh).1
     = Rejected "createdAt?.toDate is not a function".
Proof. vm_compute. split; reflexivity. Qed.

Lemma getAgreementByInvoiceId_first_witness :
  convertible (H := Samples.millis)
    (get (H := Samples.millis) Samples.malformedAgreement "createdAt") = false
  /\ calls (getAgreementByInvoiceId (H := Samples.millis) "inv1"
              Samples.agreementsEnv Samples.fresh).2
     = [GetDocs "agreements" [where_ "invoiceId" "==" (VString "inv1")]]
  /\ errors (getAgreementByInvoiceId (H := Samples.millis) "inv1"
               Samples.agreementsEnv Samples.fresh).2 = []
  /\ exists agreement : object,
       (getAgreementByInvoiceId (H := Samples.millis) "inv1"
          Samples.agreementsEnv Samples.fresh).1
       = Resolved (Some agreement)
       /\ agreement !! "id" = Some (VString "agr1")
       /\ agreement !! "content" = Some (VString "Terms")
       /\ exists d, agreement !! "createdAt" = Some (VDate d).
Proof.
  split; [reflexivity |].
  destruct (getAgreementByInvoiceId_first (H := Samples.millis) "inv1"
              Samples.agreementsEnv Samples.fresh
              [("agr1"%string, Samples.storedAgreement);
               ("agr2"%string, Samples.malformedAgreement)]
              eq_refl eq_refl)
    as (Hcalls & Herrors & agreement & Hrun & Hid & Hkeys & Hdates).
  split; [exact Hcalls |]. split; [exact Herrors |].
  exists agreement. split; [exact Hrun |]. split; [exact Hid |]. split.
  - rewrite Hkeys; [reflexivity | | discriminate].
    unfold recordDates. rewrite !not_elem_of_cons.
    repeat split; (discriminate || apply not_elem_of_nil).
  - apply Hdates. unfold recordDates. apply elem_of_cons. by left.
Defined.

End FirestoreFacts.
